(** * group-signup: the registration service over a spreadsheet store

    A shallow embedding of [src/googleSheet.ts] (class [GoogleSheetService])
    and of the request handlers of [src/server.ts], followed by the
    properties of the registration workflow and of the roster reader.

    Conventions of the embedding.
    - A JavaScript string is a [string]; each [ascii] stands for one UTF-16
      code unit below 256 (the Latin-1 range), which is where the service's
      character classes and case mapping are written out in full.
    - The sheet is its first row, where [initializeSheet] puts the header,
      and the data rows below it.  The spreadsheet backend is taken as
      reliable: [values.get] and [values.append] always answer.
    - The handlers are modelled for requests on which nothing throws: the
      fields of a body are absent or strings and the backend answers, so
      the [catch] blocks that answer 500 are not entered.  The properties
      below are about such requests and say nothing of an answer 500.
    - Asynchronous methods of the service are computations in a state monad
      over the sheet and a log of the calls made to the backend.
    - The counts object built by [getGroupCounts] is a [gmap] of its own
      properties, read through the prototype of a plain object.
    - The capacity is an integer ([parseInt] of a numeric setting); module
      [Capacity] has the two methods that compare with it for a setting
      that does not parse to a number as well. *)

From Stdlib Require Import String Ascii List ZArith Lia Bool.
From stdpp Require Import base option list gmap strings.
Import ListNotations.

Local Open Scope string_scope.
Local Open Scope list_scope.

(** ** JavaScript strings and the two character classes of the service *)

Module Js.

(** [\s] of a JavaScript regular expression, restricted to code units
    below 256: TAB, LF, VT, FF, CR, SPACE and NO-BREAK SPACE. *)
Definition is_space (c : ascii) : bool :=
  let n := nat_of_ascii c in
  ((9 <=? n) && (n <=? 13) || (n =? 32) || (n =? 160))%nat.

(** [[0-9]] *)
Definition is_digit (c : ascii) : bool :=
  let n := nat_of_ascii c in ((48 <=? n) && (n <=? 57))%nat.

(** [[\s-]] *)
Definition is_space_or_dash (c : ascii) : bool :=
  is_space c || Ascii.eqb c "-"%char.

(** [[^\s@]] *)
Definition not_space_at (c : ascii) : bool :=
  negb (is_space c || Ascii.eqb c "@"%char).

(** [String.prototype.toLowerCase] on code units below 256: A-Z and the
    Latin-1 capitals U+00C0-U+00DE (except the multiplication sign U+00D7)
    move up by 32, every other code unit is kept. *)
Definition lower_char (c : ascii) : ascii :=
  let n := nat_of_ascii c in
  if (((65 <=? n) && (n <=? 90))
      || ((192 <=? n) && (n <=? 222) && negb (n =? 215)))%nat
  then ascii_of_nat (n + 32) else c.

Fixpoint toLowerCase (s : string) : string :=
  match s with
  | EmptyString => EmptyString
  | String c s' => String (lower_char c) (toLowerCase s')
  end.

(** [s.replace(/[cls]/g, '')]: every code unit of the class is removed. *)
Fixpoint remove_class (cls : ascii -> bool) (s : string) : string :=
  match s with
  | EmptyString => EmptyString
  | String c s' =>
      if cls c then remove_class cls s' else String c (remove_class cls s')
  end.

(** A value read from a request body: [None] is [undefined] (the property
    is absent), [Some s] a string.  [truthy v] is the test [if (v)]. *)
Definition truthy (v : option string) : bool :=
  match v with
  | None => false
  | Some s => negb (String.eqb s "")
  end.

(** [v || ''] followed by a use as a string *)
Definition or_empty (v : option string) : string :=
  match v with
  | None => ""
  | Some s => s
  end.

(** [v === s] against a string [s] *)
Definition strict_eq (v : option string) (s : string) : bool :=
  match v with
  | None => false
  | Some t => String.eqb t s
  end.

End Js.

(** ** Regular expressions

    The fragment of JavaScript regular expressions the service uses:
    character classes, concatenation, [+] and bounded repetition.  A
    pattern anchored by [^] and [$] (no [m] flag) matches the whole input
    or nothing, which is what [test] decides below. *)

Module Regex.

Inductive regex : Type :=
| Void : regex
| Eps : regex
| Class : (ascii -> bool) -> regex
| Seq : regex -> regex -> regex
| Alt : regex -> regex -> regex
| Star : regex -> regex.

(** [r+] *)
Definition Plus (r : regex) : regex := Seq r (Star r).

(** [r?] *)
Definition Opt (r : regex) : regex := Alt r Eps.

(** [r{n}] *)
Fixpoint Repeat (n : nat) (r : regex) : regex :=
  match n with
  | O => Eps
  | S n' => Seq r (Repeat n' r)
  end.

(** [r{n,m}] with [m = n + k] *)
Fixpoint RepeatUpTo (k : nat) (r : regex) : regex :=
  match k with
  | O => Eps
  | S k' => Opt (Seq r (RepeatUpTo k' r))
  end.

Definition Range (n k : nat) (r : regex) : regex :=
  Seq (Repeat n r) (RepeatUpTo k r).

(** The language of a pattern. *)
Inductive matches : regex -> list ascii -> Prop :=
| MEps : matches Eps []
| MClass p c : p c = true -> matches (Class p) [c]
| MSeq r1 r2 s1 s2 :
    matches r1 s1 -> matches r2 s2 -> matches (Seq r1 r2) (s1 ++ s2)
| MAltL r1 r2 s : matches r1 s -> matches (Alt r1 r2) s
| MAltR r1 r2 s : matches r2 s -> matches (Alt r1 r2) s
| MStarNil r : matches (Star r) []
| MStarApp r s1 s2 :
    matches r s1 -> matches (Star r) s2 -> matches (Star r) (s1 ++ s2).

(** The matcher: derivatives of the pattern along the input. *)
Fixpoint nullable (r : regex) : bool :=
  match r with
  | Void => false
  | Eps => true
  | Class _ => false
  | Seq r1 r2 => nullable r1 && nullable r2
  | Alt r1 r2 => nullable r1 || nullable r2
  | Star _ => true
  end.

Fixpoint deriv (c : ascii) (r : regex) : regex :=
  match r with
  | Void => Void
  | Eps => Void
  | Class p => if p c then Eps else Void
  | Seq r1 r2 =>
      if nullable r1
      then Alt (Seq (deriv c r1) r2) (deriv c r2)
      else Seq (deriv c r1) r2
  | Alt r1 r2 => Alt (deriv c r1) (deriv c r2)
  | Star r1 => Seq (deriv c r1) (Star r1)
  end.

Fixpoint accepts (r : regex) (s : list ascii) : bool :=
  match s with
  | [] => nullable r
  | c :: s' => accepts (deriv c r) s'
  end.

(** [/^r$/.test(s)] *)
Definition test (r : regex) (s : string) : bool :=
  accepts r (list_ascii_of_string s).

Ltac inv_matches H := inversion H; clear H; subst.

End Regex.

(** ** The spreadsheet behind the service *)

Module Sheets.

Definition Row : Type := list string.

(** The sheet once [initializeSheet] has run: row 1 is the header, the
    registrants follow, one row each. *)
Record Sheet : Type := mkSheet {
  header : Row;
  data : list Row
}.

Definition all_rows (s : Sheet) : list Row := header s :: data s.

(** A call made to the spreadsheet backend. *)
Inductive Call : Type :=
| ValuesGet (range : string)
| ValuesAppend (range : string) (values : Row).

(** What a request can observe and change: the sheet, and the calls it
    has made to the backend so far. *)
Record World : Type := mkWorld {
  sheet : Sheet;
  calls : list Call
}.

(** Computations that talk to the backend. *)
Definition M (A : Type) : Type := World -> A * World.

Definition ret {A : Type} (a : A) : M A := fun w => (a, w).

Definition bind {A B : Type} (m : M A) (k : A -> M B) : M B :=
  fun w => let (a, w') := m w in k a w'.

(** [sheets.spreadsheets.values.get] on the range ['Sheet1!A2:E']: every
    row below the first. *)
Definition values_get_A2_E : M (list Row) :=
  fun w => (drop 1 (all_rows (sheet w)),
            mkWorld (sheet w) (calls w ++ [ValuesGet "Sheet1!A2:E"])).

(** A row holds a value in the columns A to E. *)
Definition row_has_value (row : Row) : bool :=
  existsb (fun cell => negb (String.eqb cell "")) (take 5 row).

(** The range ['Sheet1!A:E'] holds a value somewhere. *)
Definition has_values (s : Sheet) : bool :=
  row_has_value (header s) || existsb row_has_value (data s).

(** The header is in place: row 1 holds a value in the columns A to E,
    as [initializeSheet] leaves it. *)
Definition header_present (s : Sheet) : Prop :=
  row_has_value (header s) = true.

(** Where an appended row lands: below the last row of the table found in
    the range, and in row 1 when the range holds no value at all. *)
Definition append_A_E (values : Row) (s : Sheet) : Sheet :=
  if has_values s
  then mkSheet (header s) (data s ++ [values])
  else mkSheet (values ++ drop (length values) (header s)) (data s).

(** [sheets.spreadsheets.values.append] on the range ['Sheet1!A:E']. *)
Definition values_append_A_E (values : Row) : M unit :=
  fun w => (tt,
            mkWorld (append_A_E values (sheet w))
                    (calls w ++ [ValuesAppend "Sheet1!A:E" values])).

End Sheets.

Declare Scope await_scope.
Notation "'let*' x ':=' m 'in' k" := (Sheets.bind m (fun x => k))
  (at level 10, x name, m at level 100, k at level 200) : await_scope.
Local Open Scope await_scope.

(** ** Plain objects used as dictionaries *)

Module JsObject.

(** The values that the entries of the counts object can take: a number of
    registrants, or something that is not a number (what reading an
    inherited property, and adding 1 to it, gives). *)
Inductive jsval : Type :=
| JNum (n : nat)
| JOther.

(** The properties every object literal inherits from [Object.prototype]. *)
Definition inherited_keys : list string :=
  [ "constructor"; "__defineGetter__"; "__defineSetter__"; "hasOwnProperty";
    "__lookupGetter__"; "__lookupSetter__"; "isPrototypeOf";
    "propertyIsEnumerable"; "toString"; "valueOf"; "__proto__";
    "toLocaleString" ].

Definition inherited (k : string) : bool :=
  existsb (String.eqb k) inherited_keys.

(** [o[k]]: an own property, else an inherited one, else [undefined]. *)
Definition get (o : gmap string jsval) (k : string) : option jsval :=
  match o !! k with
  | Some v => Some v
  | None => if inherited k then Some JOther else None
  end.

(** [o[k] = v]; assigning a primitive to [__proto__] changes nothing. *)
Definition set (o : gmap string jsval) (k : string) (v : jsval)
  : gmap string jsval :=
  if String.eqb k "__proto__" then o else <[k := v]> o.

(** [v || 0] *)
Definition or_zero (v : option jsval) : jsval :=
  match v with
  | None => JNum 0
  | Some (JNum 0) => JNum 0
  | Some w => w
  end.

(** [v + 1]: addition on numbers, string concatenation otherwise. *)
Definition plus_one (v : jsval) : jsval :=
  match v with
  | JNum n => JNum (n + 1)
  | JOther => JOther
  end.

(** [v >= m]: a value that is not a number converts to NaN and compares
    false. *)
Definition at_least (v : jsval) (m : Z) : bool :=
  match v with
  | JNum n => (m <=? Z.of_nat n)%Z
  | JOther => false
  end.

(** [v < m] *)
Definition below (v : jsval) (m : Z) : bool :=
  match v with
  | JNum n => (Z.of_nat n <? m)%Z
  | JOther => false
  end.

End JsObject.

(** ** [GoogleSheetService] *)

Module GoogleSheetService.
Import Sheets JsObject.

Record Student : Type := mkStudent {
  name : string;
  email : string;
  phone : string;
  school : string;
  group : string
}.

(** The result of [checkDuplicate]: [{ isDuplicate, field? }]. *)
Record DuplicateCheck : Type := mkDuplicateCheck {
  isDuplicate : bool;
  field : option string
}.

Definition student_of_row (row : Row) : Student :=
  {| name := Js.or_empty (row !! 0%nat);
     email := Js.or_empty (row !! 1%nat);
     phone := Js.or_empty (row !! 2%nat);
     school := Js.or_empty (row !! 3%nat);
     group := Js.or_empty (row !! 4%nat) |}.

Definition addStudent (student : Student) : M unit :=
  values_append_A_E
    [name student; email student; phone student; school student;
     group student].

Definition getAllStudents : M (list Student) :=
  let* rows := values_get_A2_E in
  ret (map student_of_row rows).

(** The body of the [forEach] of [getGroupCounts]. *)
Definition count_student (counts : gmap string jsval) (student : Student)
  : gmap string jsval :=
  if negb (String.eqb (group student) "")
  then set counts (group student)
           (plus_one (or_zero (get counts (group student))))
  else counts.

Definition getGroupCounts : M (gmap string jsval) :=
  let* students := getAllStudents in
  ret (fold_left count_student students ∅).

Section Capacity.
Variable maxStudentsPerGroup : Z.

Definition getAvailableGroups (allGroups : list string) : M (list string) :=
  let* counts := getGroupCounts in
  ret (List.filter
         (fun group => below (or_zero (get counts group)) maxStudentsPerGroup)
         allGroups).

Definition isGroupFull (groupName : string) : M bool :=
  let* counts := getGroupCounts in
  ret (at_least (or_zero (get counts groupName)) maxStudentsPerGroup).

End Capacity.

Definition normalize_phone (phone : string) : string :=
  Js.remove_class Js.is_space_or_dash phone.

Definition checkDuplicate (email phone : string) : M DuplicateCheck :=
  let* students := getAllStudents in
  let normalizedPhone := normalize_phone phone in
  let emailExists :=
    existsb (fun student =>
               String.eqb (Js.toLowerCase (GoogleSheetService.email student))
                          (Js.toLowerCase email))
            students in
  if emailExists then ret (mkDuplicateCheck true (Some "email"))
  else
    let phoneExists :=
      existsb (fun student =>
                 String.eqb
                   (normalize_phone (GoogleSheetService.phone student))
                   normalizedPhone)
              students in
    if phoneExists then ret (mkDuplicateCheck true (Some "phone"))
    else ret (mkDuplicateCheck false None).

End GoogleSheetService.

(** ** The HTTP surface ([server.ts]) *)

Module Server.
Import Sheets JsObject GoogleSheetService.

(** *** Start-up and the initialization gate *)

Inductive Promise : Type :=
| Pending
| Fulfilled
| Rejected.

Record Response : Type := mkResponse {
  status : Z;
  success : bool;
  message : string
}.

Record Process : Type := mkProcess {
  isSheetInitialized : bool;
  initPromise : Promise;
  exited : bool
}.

(** The process right after the module is loaded: the async function that
    initializes the sheet has been started and has not settled. *)
Definition started : Process := mkProcess false Pending false.

(** The async function behind [initPromise], once [initializeSheet] has
    settled: [initialized] tells whether it resolved or threw.  The [catch]
    block handles the error, so where the process goes on the promise is
    fulfilled. *)
Definition init_settles (production initialized : bool) (p : Process)
  : Process :=
  if initialized then mkProcess true Fulfilled (exited p)
  else if negb production then mkProcess (isSheetInitialized p) Pending true
  else mkProcess (isSheetInitialized p) Fulfilled (exited p).

Inductive Gate : Type :=
| Held
| Next
| Answered (r : Response).

(** The middleware in front of the API routes. *)
Definition gate (p : Process) : Gate :=
  if negb (isSheetInitialized p) then
    match initPromise p with
    | Pending => Held
    | Fulfilled => Next
    | Rejected =>
        Answered
          (mkResponse 503 false
             "Service temporarily unavailable - Google Sheets initialization failed")
    end
  else Next.

(** *** The routes *)

(** The body of a registration request. *)
Record Body : Type := mkBody {
  body_name : option string;
  body_email : option string;
  body_phone : option string;
  body_school : option string;
  body_group : option string;
  recaptchaToken : option string
}.

(** An entry of the answer of [GET /api/groups]. *)
Record GroupStatus : Type := mkGroupStatus {
  gs_name : string;
  count : jsval;
  isFull : bool;
  maxStudents : Z
}.

(** [/^[^\s@]+@[^\s@]+\.[^\s@]+$/] *)
Definition emailRegex : Regex.regex :=
  Regex.Seq (Regex.Plus (Regex.Class Js.not_space_at))
    (Regex.Seq (Regex.Class (Ascii.eqb "@"))
       (Regex.Seq (Regex.Plus (Regex.Class Js.not_space_at))
          (Regex.Seq (Regex.Class (Ascii.eqb "."))
             (Regex.Plus (Regex.Class Js.not_space_at))))).

(** [/^[0-9]{10,11}$/] *)
Definition phoneRegex : Regex.regex :=
  Regex.Range 10 1 (Regex.Class Js.is_digit).

Definition reject (msg : string) : Response := mkResponse 400 false msg.

Definition ok (msg : string) : Response := mkResponse 200 true msg.

(** The string a destructured field is used as. *)
Definition str (v : option string) : string :=
  match v with
  | None => "undefined"
  | Some s => s
  end.

Section Routes.
Variable GROUP_NAMES : list string.
Variable MAX_STUDENTS_PER_GROUP : Z.
(** The remote verification of a token, as the boolean it resolves to. *)
Variable verifyRecaptcha : string -> bool.

(** [GET /api/groups] *)
Definition get_groups : M (list GroupStatus) :=
  let* groupCounts := getGroupCounts in
  let maxStudents := MAX_STUDENTS_PER_GROUP in
  ret (map (fun groupName =>
              mkGroupStatus groupName
                (or_zero (get groupCounts groupName))
                (at_least (or_zero (get groupCounts groupName)) maxStudents)
                maxStudents)
           GROUP_NAMES).

(** [GET /api/students] *)
Definition get_students : M (list Student) := getAllStudents.

(** [POST /api/register], for a body whose fields are absent or strings
    and a store that answers: the [try] block, in which nothing throws. *)
Definition register (body : Body) : M Response :=
  let name := body_name body in
  let email := body_email body in
  let phone := body_phone body in
  let school := body_school body in
  let group := body_group body in
  if negb (Js.truthy name) || negb (Js.truthy email)
     || negb (Js.truthy phone) || negb (Js.truthy school)
     || negb (Js.truthy group)
  then ret (reject "All fields are required")
  else if negb (Js.truthy (recaptchaToken body))
  then ret (reject "reCAPTCHA verification is required")
  else if negb (verifyRecaptcha (str (recaptchaToken body)))
  then ret (reject "reCAPTCHA verification failed. Please try again.")
  else if negb (Regex.test emailRegex (str email))
  then ret (reject "Invalid email format")
  else if negb (Regex.test phoneRegex (normalize_phone (str phone)))
  then ret (reject "Invalid phone number format")
  else if negb (existsb (String.eqb (str group)) GROUP_NAMES)
  then ret (reject "Invalid group selection")
  else
    let* duplicateCheck := checkDuplicate (str email) (str phone) in
    if isDuplicate duplicateCheck then
      let fieldName :=
        if Js.strict_eq (field duplicateCheck) "email"
        then "Email" else "Phone number" in
      ret (reject (fieldName ++ " already exists. Please use a different "
                   ++ str (field duplicateCheck) ++ "."))
    else
      let* full := isGroupFull MAX_STUDENTS_PER_GROUP (str group) in
      if full then
        ret (reject
               "This group is already full. Please select another group.")
      else
        let* _ := addStudent
                    (mkStudent (str name) (str email) (str phone)
                       (str school) (str group)) in
        ret (ok "Registration successful!").

End Routes.

End Server.

(** ** The vocabulary of the specification

    The notions the properties below are stated with: the roster held by a
    sheet, the number of records of a group, duplicates, the shapes of an
    email address and of a phone number, and the checks a submission has
    passed when it reaches a given step of the workflow. *)

Module Spec.
Import Sheets JsObject GoogleSheetService Server.

(** The student records of a sheet: one per row below the header. *)
Definition roster (s : Sheet) : list Student :=
  map student_of_row (data s).

(** The number of student records whose group equals [g]. *)
Definition count_in (g : string) (students : list Student) : nat :=
  length (List.filter (fun st => String.eqb (group st) g) students).

(** The sum of the numeric entries of a counts object. *)
Definition sum_counts (counts : gmap string jsval) : nat :=
  map_fold (fun _ v acc => match v with JNum n => n + acc | JOther => acc end)
           0 counts.

(** Equality of emails up to letter case. *)
Definition same_email (e1 e2 : string) : Prop :=
  Js.toLowerCase e1 = Js.toLowerCase e2.

(** Equality of phone numbers once spaces and dashes are removed from
    both. *)
Definition same_phone (p1 p2 : string) : Prop :=
  normalize_phone p1 = normalize_phone p2.

Definition email_taken (e : string) (students : list Student) : Prop :=
  exists st, In st students /\ same_email (email st) e.

Definition phone_taken (p : string) (students : list Student) : Prop :=
  exists st, In st students /\ same_phone (phone st) p.

(** A field of a submission is missing: absent, or the empty string. *)
Definition missing (v : option string) : Prop :=
  v = None \/ v = Some "".

(** Every code unit of [s] satisfies [cls]. *)
Definition all_chars (cls : ascii -> bool) (s : string) : Prop :=
  forall c, In c (list_ascii_of_string s) -> cls c = true.

(** The shape [local@domain.tld]: a local part, an at sign, and a domain
    with a dot inside it, the three parts non-empty and free of white
    space and of further at signs. *)
Definition email_shape (e : string) : Prop :=
  exists local label tld : string,
    e = (local ++ "@" ++ label ++ "." ++ tld)%string
    /\ local <> "" /\ label <> "" /\ tld <> ""
    /\ all_chars Js.not_space_at local
    /\ all_chars Js.not_space_at label
    /\ all_chars Js.not_space_at tld.

(** A string of digits of length 10 or 11. *)
Definition digits_10_or_11 (s : string) : Prop :=
  all_chars Js.is_digit s /\ (String.length s = 10 \/ String.length s = 11).

(** The steps of the workflow, as conditions on a submission. *)
Definition fields_present (b : Body) : bool :=
  Js.truthy (body_name b) && Js.truthy (body_email b)
  && Js.truthy (body_phone b) && Js.truthy (body_school b)
  && Js.truthy (body_group b).

Definition verified (verifyRecaptcha : string -> bool) (b : Body) : bool :=
  Js.truthy (recaptchaToken b) && verifyRecaptcha (str (recaptchaToken b)).

Definition email_valid (b : Body) : bool :=
  Regex.test emailRegex (str (body_email b)).

Definition phone_valid (b : Body) : bool :=
  Regex.test phoneRegex (normalize_phone (str (body_phone b))).

Definition group_configured (GROUP_NAMES : list string) (b : Body) : bool :=
  existsb (String.eqb (str (body_group b))) GROUP_NAMES.

(** The submission passes the five checks made before the store is read. *)
Definition well_formed (GROUP_NAMES : list string)
    (verifyRecaptcha : string -> bool) (b : Body) : bool :=
  fields_present b && verified verifyRecaptcha b && email_valid b
  && phone_valid b && group_configured GROUP_NAMES b.

(** The messages of the rejections the properties name. *)
Definition missing_fields : Response := reject "All fields are required".
Definition recaptcha_required : Response :=
  reject "reCAPTCHA verification is required".
Definition recaptcha_failed : Response :=
  reject "reCAPTCHA verification failed. Please try again.".
Definition invalid_email : Response := reject "Invalid email format".
Definition invalid_phone : Response := reject "Invalid phone number format".
Definition invalid_group : Response := reject "Invalid group selection".
Definition duplicate_email : Response :=
  reject "Email already exists. Please use a different email.".
Definition duplicate_phone : Response :=
  reject "Phone number already exists. Please use a different phone.".
Definition group_full : Response :=
  reject "This group is already full. Please select another group.".
Definition registered : Response := ok "Registration successful!".

(** The two scans of [checkDuplicate], as booleans. *)
Definition email_takenb (e : string) (students : list Student) : bool :=
  existsb (fun st => String.eqb (Js.toLowerCase (email st)) (Js.toLowerCase e))
          students.

Definition phone_takenb (p : string) (students : list Student) : bool :=
  existsb (fun st => String.eqb (normalize_phone (phone st))
                                (normalize_phone p))
          students.

(** The row a submission is stored as. *)
Definition row_of (b : Body) : Row :=
  [str (body_name b); str (body_email b); str (body_phone b);
   str (body_school b); str (body_group b)].

(** The world after a successful registration: the row is appended, after
    two reads of the data rows. *)
Definition after_append (b : Body) (w : World) : World :=
  mkWorld (append_A_E (row_of b) (sheet w))
          (calls w ++ [ValuesGet "Sheet1!A2:E"; ValuesGet "Sheet1!A2:E";
                       ValuesAppend "Sheet1!A:E" (row_of b)]).

(** The world after a request that made [n] reads of the data rows and
    nothing else. *)
Definition after_reads (n : nat) (w : World) : World :=
  mkWorld (sheet w) (calls w ++ repeat (ValuesGet "Sheet1!A2:E") n).

(** The answers of [register] are pairwise distinct messages. *)
Ltac distinct_answers :=
  unfold missing_fields, recaptcha_required, recaptcha_failed, invalid_email,
    invalid_phone, invalid_group, duplicate_email, duplicate_phone,
    group_full, registered, reject, ok in *;
  try discriminate; try congruence.

End Spec.

(** ** A small sheet and a few submissions, used to exercise the
    properties *)

Module Sample.
Import Sheets GoogleSheetService Server.

Definition head_row : Row := ["Name"; "Email"; "Phone"; "School"; "Group"].

Definition an : Row := ["An"; "A@b.com"; "0123-456-789"; "School 1"; "A"].

(** A row whose group cell is missing. *)
Definition binh : Row := ["Binh"; "binh@b.com"; "0999 888 777"; "School 2"].

Definition one_row : World := mkWorld (mkSheet head_row [an]) [].

Definition two_rows : World := mkWorld (mkSheet head_row [an; binh]) [].

Definition no_group_row : World := mkWorld (mkSheet head_row [binh]) [].

Definition accept_token (token : string) : bool := true.

Definition names5 : list string := ["A"; "B"; "C"; "D"; "E"].

Definition submission (name email phone group : option string) : Body :=
  mkBody name email phone (Some "School 3") group (Some "token").

(** A submission without a verification token. *)
Definition no_token (email phone : string) : Body :=
  mkBody (Some "Chi") (Some email) (Some phone) (Some "School 3") (Some "A")
         None.

Definition chi : Body :=
  submission (Some "Chi") (Some "chi@b.com") (Some "0111222333") (Some "A").

(** Requests served one after the other. *)
Fixpoint serve (GROUP_NAMES : list string) (cap : Z)
    (verifyRecaptcha : string -> bool) (requests : list Body) (w : World)
  : list Response * World :=
  match requests with
  | [] => ([], w)
  | b :: rest =>
      let (answer, w1) := register GROUP_NAMES cap verifyRecaptcha b w in
      let (answers, w2) := serve GROUP_NAMES cap verifyRecaptcha rest w1 in
      (answer :: answers, w2)
  end.

End Sample.

(** ** More of the service: settings, start-up, verification, client *)

Module JsText.

(** [String.prototype.trimStart], [trimEnd] and [trim]: white space is the
    class [\s]. *)
Fixpoint trimStart (s : string) : string :=
  match s with
  | EmptyString => EmptyString
  | String c s' => if Js.is_space c then trimStart s' else s
  end.

Fixpoint trimEnd (s : string) : string :=
  match s with
  | EmptyString => EmptyString
  | String c s' =>
      let t := trimEnd s' in
      if Js.is_space c && String.eqb t "" then EmptyString else String c t
  end.

Definition trim (s : string) : string := trimEnd (trimStart s).

(** [s.split(sep)] for a separator of one code unit: the pieces between
    the separators, one piece more than there are separators. *)
Fixpoint split (sep : ascii) (s : string) : list string :=
  match s with
  | EmptyString => [EmptyString]
  | String c s' =>
      if Ascii.eqb c sep then EmptyString :: split sep s'
      else match split sep s' with
           | piece :: pieces => String c piece :: pieces
           | [] => [String c EmptyString]
           end
  end.

(** The number of occurrences of a code unit. *)
Fixpoint occurrences (c : ascii) (s : string) : nat :=
  match s with
  | EmptyString => 0
  | String d s' => (if Ascii.eqb d c then 1 else 0) + occurrences c s'
  end.

(** The first and the last code unit, when there is one. *)
Definition first_char (s : string) : option ascii :=
  match s with
  | EmptyString => None
  | String c _ => Some c
  end.

Fixpoint last_char (s : string) : option ascii :=
  match s with
  | EmptyString => None
  | String c EmptyString => Some c
  | String _ s' => last_char s'
  end.

(** No white space at either end. *)
Definition trimmed (s : string) : Prop :=
  (forall c, first_char s = Some c -> Js.is_space c = false)
  /\ (forall c, last_char s = Some c -> Js.is_space c = false).

(** Only white space. *)
Definition blank (s : string) : Prop :=
  forall c, In c (list_ascii_of_string s) -> Js.is_space c = true.

End JsText.

Module Settings.

(** [process.env.GROUP_NAMES!.split(',').map(name => name.trim())] *)
Definition parse_group_names (setting : string) : list string :=
  map JsText.trim (JsText.split "," setting).

End Settings.

Module SheetInit.
Import Sheets.

(** The header [initializeSheet] writes (the titles are text outside the
    Latin-1 range, kept here as the bytes of their UTF-8 encoding: they are
    written and never inspected). *)
Definition titles : Row :=
  ["Họ và tên"; "Email"; "Số điện thoại"; "Trường học"; "Nhóm"].

Inductive InitCall : Type :=
| HeaderGet
| HeaderUpdate (values : Row).

(** [values.get] on ['Sheet1!A1:E1']: the cells A to E of row 1, and no
    [values] at all when the five cells are empty. *)
Definition values_get_A1_E1 (s : Sheet) : option (list Row) :=
  if existsb (fun cell => negb (String.eqb cell "")) (take 5 (header s))
  then Some [take 5 (header s)]
  else None.

(** [values.update] on ['Sheet1!A1:E1']: the given cells replace the first
    cells of row 1; the rest of the sheet stays. *)
Definition values_update_A1_E1 (values : Row) (s : Sheet) : Sheet :=
  mkSheet (values ++ drop (length values) (header s)) (data s).

(** [initializeSheet], for a backend that answers: the sheet it leaves and
    the calls it made. *)
Definition initializeSheet (s : Sheet) : Sheet * list InitCall :=
  match values_get_A1_E1 s with
  | Some (_ :: _) => (s, [HeaderGet])
  | _ => (values_update_A1_E1 titles s, [HeaderGet; HeaderUpdate titles])
  end.

End SheetInit.

Module Recaptcha.

(** What the request to [www.google.com/recaptcha/api/siteverify] comes to:
    an error event, or the data received. *)
Inductive SiteVerify : Type :=
| RequestError
| Received (data : string).

Section Verify.
(** [process.env.RECAPTCHA_SECRET_KEY] *)
Variable RECAPTCHA_SECRET_KEY : option string.
(** The remote service, by the body posted to it. *)
Variable siteverify : string -> SiteVerify.
(** [JSON.parse(data).success === true]; [None] when evaluating it
    throws. *)
Variable success_is_true : string -> option bool.

Definition verifyRecaptcha (token : string) : bool :=
  let secretKey := RECAPTCHA_SECRET_KEY in
  if negb (Js.truthy secretKey) then false
  else
    let postData :=
      ("secret=" ++ Server.str secretKey ++ "&response=" ++ token)%string in
    match siteverify postData with
    | RequestError => false
    | Received data =>
        match success_is_true data with
        | Some result => result
        | None => false
        end
    end.

End Verify.

End Recaptcha.

Module Client.
Import Server.

(** [escapeHtml] of [public/app.js] *)
Definition escape_char (c : ascii) : string :=
  if Ascii.eqb c "&" then "&amp;"
  else if Ascii.eqb c "<" then "&lt;"
  else if Ascii.eqb c ">" then "&gt;"
  else if Ascii.eqb c "034" then "&quot;"
  else if Ascii.eqb c "'" then "&#039;"
  else String c EmptyString.

Fixpoint escapeHtml (text : string) : string :=
  match text with
  | EmptyString => EmptyString
  | String c text' => (escape_char c ++ escapeHtml text')%string
  end.

(** The class of the five characters [escapeHtml] replaces. *)
Definition is_markup (c : ascii) : bool :=
  Ascii.eqb c "&" || Ascii.eqb c "<" || Ascii.eqb c ">"
  || Ascii.eqb c "034" || Ascii.eqb c "'".

(** The registration form: the values of its inputs, and the response of
    the verification widget. *)
Record Form : Type := mkForm {
  input_name : string;
  input_email : string;
  input_phone : string;
  input_school : string;
  select_group : string;
  recaptchaResponse : string
}.

(** The submit handler: the body it posts to [/api/register], or nothing
    when it stops at a message. *)
Definition submit (f : Form) : option Body :=
  let name := JsText.trim (input_name f) in
  let email := JsText.trim (input_email f) in
  let phone := JsText.trim (input_phone f) in
  let school := JsText.trim (input_school f) in
  let group := select_group f in
  if String.eqb name "" || String.eqb email "" || String.eqb phone ""
     || String.eqb school "" || String.eqb group ""
  then None
  else if String.eqb (recaptchaResponse f) "" then None
  else Some (mkBody (Some name) (Some email) (Some phone) (Some school)
               (Some group) (Some (recaptchaResponse f))).

End Client.

Module Legacy.
Import Sheets GoogleSheetService Server.

Section Routes.
Variable GROUP_NAMES : list string.
Variable MAX_STUDENTS_PER_GROUP : Z.

(** [POST /api/register] of the earlier server: no verification token and
    no duplicate check.  As for the present one, this is the [try] block
    for a body whose fields are absent or strings and a store that
    answers. *)
Definition register (body : Body) : M Response :=
  let name := body_name body in
  let email := body_email body in
  let phone := body_phone body in
  let school := body_school body in
  let group := body_group body in
  if negb (Js.truthy name) || negb (Js.truthy email)
     || negb (Js.truthy phone) || negb (Js.truthy school)
     || negb (Js.truthy group)
  then ret (reject "All fields are required")
  else if negb (Regex.test emailRegex (str email))
  then ret (reject "Invalid email format")
  else if negb (Regex.test phoneRegex (normalize_phone (str phone)))
  then ret (reject "Invalid phone number format")
  else if negb (existsb (String.eqb (str group)) GROUP_NAMES)
  then ret (reject "Invalid group selection")
  else
    let* full := isGroupFull MAX_STUDENTS_PER_GROUP (str group) in
    if full then
      ret (reject "This group is already full. Please select another group.")
    else
      let* _ := addStudent
                  (mkStudent (str name) (str email) (str phone)
                     (str school) (str group)) in
      ret (ok "Registration successful!").

End Routes.

End Legacy.

Module Capacity.
Import Sheets JsObject GoogleSheetService.

(** [parseInt(process.env.MAX_STUDENTS_PER_GROUP || '5')]: an integer, or
    NaN when the setting does not begin with a number. *)
Inductive Capacity : Type :=
| NotANumber
| Number (z : Z).

(** [v >= c] and [v < c], for every capacity: a comparison with NaN is
    false. *)
Definition at_least (v : jsval) (c : Capacity) : bool :=
  match c with
  | NotANumber => false
  | Number z => JsObject.at_least v z
  end.

Definition below (v : jsval) (c : Capacity) : bool :=
  match c with
  | NotANumber => false
  | Number z => JsObject.below v z
  end.

Section Service.
Variable maxStudentsPerGroup : Capacity.

(** [getAvailableGroups] and [isGroupFull], for every capacity. *)
Definition getAvailableGroups (allGroups : list string) : M (list string) :=
  let* counts := getGroupCounts in
  ret (List.filter
         (fun group => below (or_zero (get counts group)) maxStudentsPerGroup)
         allGroups).

Definition isGroupFull (groupName : string) : M bool :=
  let* counts := getGroupCounts in
  ret (at_least (or_zero (get counts groupName)) maxStudentsPerGroup).

End Service.

End Capacity.

Module Invariants.
Import Sheets JsObject GoogleSheetService Server Spec.

(** No two records share an email up to letter case, or a phone up to
    spaces and dashes. *)
Definition distinct_contacts (students : list Student) : Prop :=
  ForallOrdPairs
    (fun s t => ~ same_email (email s) (email t)
                /\ ~ same_phone (phone s) (phone t))
    students.

(** No group with an ordinary name holds more records than the
    capacity. *)
Definition within_capacity (cap : Z) (students : list Student) : Prop :=
  forall g, g <> "" -> inherited g = false ->
            In g (map group students) ->
            (Z.of_nat (count_in g students) <= cap)%Z.

(** A record as the workflow lets it in. *)
Definition valid_record (GROUP_NAMES : list string) (st : Student) : Prop :=
  name st <> "" /\ school st <> ""
  /\ email_shape (email st)
  /\ digits_10_or_11 (normalize_phone (phone st))
  /\ group st <> "" /\ In (group st) GROUP_NAMES.

(** The number of records that name a group under which they are
    counted. *)
Definition counted (students : list Student) : nat :=
  length (List.filter
            (fun st => negb (String.eqb (group st) "")
                       && negb (inherited (group st)))
            students).

(** The entry [getGroupCounts] holds for a name, as a function of the
    records. *)
Definition entry_of (g : string) (students : list Student) : option jsval :=
  if String.eqb g "" || String.eqb g "__proto__" then None
  else match count_in g students with
       | O => None
       | S n => Some (if inherited g then JOther else JNum (S n))
       end.

End Invariants.

(** * Properties *)

(** ** The matcher decides the language of a pattern *)

Module RegexFacts.
Import Regex.

Lemma nullable_matches (r : regex) : nullable r = true <-> matches r [].
Proof.
  induction r as [ | | p | r1 IH1 r2 IH2 | r1 IH1 r2 IH2 | r IH ]; simpl.
  - split; [discriminate | intros H; inversion H].
  - split; [intros _; constructor | reflexivity].
  - split; [discriminate | intros H; inversion H].
  - rewrite andb_true_iff, IH1, IH2. split.
    + intros [H1 H2]. apply (MSeq r1 r2 [] []); assumption.
    + intros H. inversion H as [ | | ? ? s1 s2 H1 H2 | | | | ].
      destruct s1; [ | discriminate ]. destruct s2; [ | discriminate ].
      split; assumption.
  - rewrite orb_true_iff, IH1, IH2. split.
    + intros [H | H]; [apply MAltL | apply MAltR]; assumption.
    + intros H. inv_matches H; [left | right]; assumption.
  - split; [intros _; constructor | reflexivity].
Qed.

Lemma star_cons_inv (r : regex) (c : ascii) (s : list ascii) :
  matches (Star r) (c :: s) ->
  exists s1 s2, s = s1 ++ s2 /\ matches r (c :: s1) /\ matches (Star r) s2.
Proof.
  intros H. remember (Star r) as r' eqn:Hr. remember (c :: s) as w eqn:Hw.
  revert s Hw.
  induction H as [ | | | | | | r0 s1 s2 H1 _ H2 IH2 ]; try discriminate.
  intros s Hw. injection Hr as ->.
  destruct s1 as [ | c1 s1 ]; simpl in Hw.
  - apply IH2; [reflexivity | assumption].
  - injection Hw as -> <-. exists s1, s2. repeat split; assumption.
Qed.

Lemma seq_cons_inv (r1 r2 : regex) (c : ascii) (s : list ascii) :
  matches (Seq r1 r2) (c :: s) ->
  (matches r1 [] /\ matches r2 (c :: s))
  \/ exists s1 s2, s = s1 ++ s2 /\ matches r1 (c :: s1) /\ matches r2 s2.
Proof.
  intros H. inversion H as [ | | ? ? s1 s2 H1 H2 Heq | | | | ]; subst.
  destruct s1 as [ | c1 s1 ]; simpl in *.
  - left. subst. split; assumption.
  - right. match goal with E : _ :: _ = _ :: _ |- _ => injection E as -> <- end.
    exists s1, s2. repeat split; assumption.
Qed.

Lemma seq_inv (r1 r2 : regex) (s : list ascii) :
  matches (Seq r1 r2) s ->
  exists s1 s2, s = s1 ++ s2 /\ matches r1 s1 /\ matches r2 s2.
Proof.
  intros H. inversion H as [ | | ? ? s1 s2 H1 H2 | | | | ]; subst.
  exists s1, s2. repeat split; assumption.
Qed.

Lemma deriv_sound (r : regex) (c : ascii) (s : list ascii) :
  matches (deriv c r) s -> matches r (c :: s).
Proof.
  revert s.
  induction r as [ | | p | r1 IH1 r2 IH2 | r1 IH1 r2 IH2 | r IH ];
    simpl; intros s H.
  - inversion H.
  - inversion H.
  - destruct (p c) eqn:Hp; inv_matches H. apply MClass, Hp.
  - assert (Hseq : forall t, matches (Seq (deriv c r1) r2) t ->
                             matches (Seq r1 r2) (c :: t)).
    { intros t Ht. apply seq_inv in Ht as (s1 & s2 & -> & H1 & H2).
      apply (MSeq r1 r2 (c :: s1) s2); [apply IH1, H1 | exact H2]. }
    destruct (nullable r1) eqn:Hn.
    + inv_matches H.
      * apply Hseq. assumption.
      * apply (MSeq r1 r2 [] (c :: s)).
        -- apply nullable_matches, Hn.
        -- apply IH2. assumption.
    + apply Hseq, H.
  - inv_matches H; [apply MAltL, IH1 | apply MAltR, IH2]; assumption.
  - apply seq_inv in H as (s1 & s2 & -> & H1 & H2).
    apply (MStarApp r (c :: s1) s2); [apply IH, H1 | exact H2].
Qed.

Lemma deriv_complete (r : regex) (c : ascii) (s : list ascii) :
  matches r (c :: s) -> matches (deriv c r) s.
Proof.
  revert s.
  induction r as [ | | p | r1 IH1 r2 IH2 | r1 IH1 r2 IH2 | r IH ];
    simpl; intros s H.
  - inversion H.
  - inversion H.
  - inversion H as [ | ? ? Hp | | | | | ]; subst. rewrite Hp. constructor.
  - apply seq_cons_inv in H as [[H1 H2] | (s1 & s2 & -> & H1 & H2)].
    + apply nullable_matches in H1. rewrite H1. apply MAltR, IH2, H2.
    + assert (Hs : matches (Seq (deriv c r1) r2) (s1 ++ s2))
        by (apply MSeq; [apply IH1, H1 | exact H2]).
      destruct (nullable r1); [apply MAltL, Hs | exact Hs].
  - inv_matches H; [apply MAltL, IH1 | apply MAltR, IH2]; assumption.
  - apply star_cons_inv in H as (s1 & s2 & -> & H1 & H2).
    apply MSeq; [apply IH, H1 | exact H2].
Qed.

Lemma accepts_matches (r : regex) (s : list ascii) :
  accepts r s = true <-> matches r s.
Proof.
  revert r. induction s as [ | c s IH ]; intros r; simpl.
  - apply nullable_matches.
  - rewrite IH. split; [apply deriv_sound | apply deriv_complete].
Qed.

(** Patterns over one character class. *)

Lemma matches_class (p : ascii -> bool) (s : list ascii) :
  matches (Class p) s <-> exists c, s = [c] /\ p c = true.
Proof.
  split.
  - intros H. inv_matches H. eauto.
  - intros (c & -> & Hp). apply MClass, Hp.
Qed.

Lemma matches_star_class (p : ascii -> bool) (s : list ascii) :
  matches (Star (Class p)) s <-> forallb p s = true.
Proof.
  split.
  - intros H. remember (Star (Class p)) as r eqn:Hr.
    induction H as [ | | | | | | r0 s1 s2 H1 _ H2 IH2 ]; try discriminate.
    + reflexivity.
    + injection Hr as ->. apply matches_class in H1 as (c & -> & Hc).
      simpl. rewrite Hc. apply IH2. reflexivity.
  - induction s as [ | c s IH ]; simpl; intros H.
    + constructor.
    + apply andb_true_iff in H as [Hc Hs].
      apply (MStarApp (Class p) [c] s); [apply MClass, Hc | apply IH, Hs].
Qed.

Lemma matches_plus_class (p : ascii -> bool) (s : list ascii) :
  matches (Plus (Class p)) s <-> s <> [] /\ forallb p s = true.
Proof.
  unfold Plus. split.
  - intros H. apply seq_inv in H as (s1 & s2 & -> & H1 & H2).
    apply matches_class in H1 as (c & -> & Hc).
    apply matches_star_class in H2. simpl. rewrite Hc, H2.
    split; [discriminate | reflexivity].
  - intros [Hne H]. destruct s as [ | c s ]; [congruence | ].
    simpl in H. apply andb_true_iff in H as [Hc Hs].
    apply (MSeq _ _ [c] s); [apply MClass, Hc | apply matches_star_class, Hs].
Qed.

Lemma matches_repeat_class (p : ascii -> bool) (n : nat) (s : list ascii) :
  matches (Repeat n (Class p)) s <-> length s = n /\ forallb p s = true.
Proof.
  revert s. induction n as [ | n IH ]; intros s; simpl.
  - split.
    + intros H. inv_matches H. split; reflexivity.
    + intros [Hl _]. destruct s; [constructor | discriminate].
  - split.
    + intros H. apply seq_inv in H as (s1 & s2 & -> & H1 & H2).
      apply matches_class in H1 as (c & -> & Hc).
      apply IH in H2 as [Hl Hs]. simpl. rewrite Hc, Hs, Hl.
      split; reflexivity.
    + intros [Hl H]. destruct s as [ | c s ]; [discriminate | ].
      simpl in Hl, H. apply andb_true_iff in H as [Hc Hs].
      apply (MSeq _ _ [c] s); [apply MClass, Hc | ].
      apply IH. split; [lia | exact Hs].
Qed.

End RegexFacts.

(** ** What the two patterns of the service accept *)

Module PatternFacts.
Import Regex RegexFacts Spec.

Lemma list_ascii_of_string_app (s t : string) :
  list_ascii_of_string (s ++ t)
  = list_ascii_of_string s ++ list_ascii_of_string t.
Proof.
  induction s as [ | c s IH ]; simpl; [reflexivity | now rewrite IH].
Qed.

Lemma list_ascii_inj (s t : string) :
  list_ascii_of_string s = list_ascii_of_string t -> s = t.
Proof.
  intros H. rewrite <- (string_of_list_ascii_of_string s),
    <- (string_of_list_ascii_of_string t). now rewrite H.
Qed.

Lemma list_ascii_length (s : string) :
  length (list_ascii_of_string s) = String.length s.
Proof.
  induction s as [ | c s IH ]; simpl; [reflexivity | now rewrite IH].
Qed.

Lemma list_ascii_nonempty (s : string) :
  list_ascii_of_string s <> [] <-> s <> "".
Proof.
  destruct s; simpl; split; intros H; congruence.
Qed.

Lemma all_chars_forallb (cls : ascii -> bool) (s : string) :
  all_chars cls s <-> forallb cls (list_ascii_of_string s) = true.
Proof.
  unfold all_chars. rewrite forallb_forall. reflexivity.
Qed.

Lemma at_sign (c : ascii) : Ascii.eqb "@" c = true <-> c = "@"%char.
Proof.
  rewrite Ascii.eqb_eq. split; congruence.
Qed.

Lemma dot_sign (c : ascii) : Ascii.eqb "." c = true <-> c = "."%char.
Proof.
  rewrite Ascii.eqb_eq. split; congruence.
Qed.

(** The language of [emailRegex], on lists of code units. *)
Lemma emailRegex_matches (s : list ascii) :
  matches Server.emailRegex s <->
  exists a b c,
    s = a ++ "@"%char :: b ++ "."%char :: c
    /\ (a <> [] /\ forallb Js.not_space_at a = true)
    /\ (b <> [] /\ forallb Js.not_space_at b = true)
    /\ (c <> [] /\ forallb Js.not_space_at c = true).
Proof.
  unfold Server.emailRegex. split.
  - intros H.
    apply seq_inv in H as (a & s1 & -> & Ha & H).
    apply seq_inv in H as (x & s2 & -> & Hx & H).
    apply seq_inv in H as (b & s3 & -> & Hb & H).
    apply seq_inv in H as (y & c & -> & Hy & Hc).
    apply matches_class in Hx as (cx & -> & Hx). apply at_sign in Hx as ->.
    apply matches_class in Hy as (cy & -> & Hy). apply dot_sign in Hy as ->.
    apply matches_plus_class in Ha, Hb, Hc.
    exists a, b, c. simpl. repeat split; tauto.
  - intros (a & b & c & -> & Ha & Hb & Hc).
    apply matches_plus_class in Ha, Hb, Hc.
    apply MSeq; [exact Ha | ].
    apply (MSeq _ _ ["@"%char]); [now apply MClass | ].
    apply MSeq; [exact Hb | ].
    apply (MSeq _ _ ["."%char]); [now apply MClass | exact Hc].
Qed.

(** [emailRegex.test(e)] holds exactly for the emails of the shape
    [local@domain.tld]. *)
Lemma emailRegex_test_shape (e : string) :
  test Server.emailRegex e = true <-> email_shape e.
Proof.
  unfold test. rewrite accepts_matches, emailRegex_matches.
  unfold email_shape. split.
  - intros (a & b & c & He & [Ha1 Ha2] & [Hb1 Hb2] & [Hc1 Hc2]).
    exists (string_of_list_ascii a), (string_of_list_ascii b),
      (string_of_list_ascii c).
    rewrite !all_chars_forallb, <- !list_ascii_nonempty,
      !list_ascii_of_string_of_list_ascii.
    repeat split; try assumption.
    apply list_ascii_inj. rewrite He.
    rewrite !list_ascii_of_string_app, !list_ascii_of_string_of_list_ascii.
    reflexivity.
  - intros (l & d & t & -> & Hl & Hd & Ht & Hl' & Hd' & Ht').
    exists (list_ascii_of_string l), (list_ascii_of_string d),
      (list_ascii_of_string t).
    rewrite !list_ascii_nonempty, <- !all_chars_forallb.
    rewrite !list_ascii_of_string_app. simpl. tauto.
Qed.

(** An email of that shape reads: a local part, an at sign, a domain with
    a dot, and no white space anywhere. *)
Lemma email_shape_words (e : string) :
  email_shape e ->
  exists local domain : string,
    e = (local ++ "@" ++ domain)%string
    /\ local <> ""
    /\ (exists d1 d2 : string, domain = (d1 ++ "." ++ d2)%string)
    /\ all_chars (fun c => negb (Js.is_space c)) e.
Proof.
  intros (l & d & t & -> & Hl & _ & _ & Hl' & Hd' & Ht').
  exists l, (d ++ "." ++ t)%string. repeat split; eauto.
  assert (Hweak : forall s, all_chars Js.not_space_at s ->
                            all_chars (fun c => negb (Js.is_space c)) s).
  { intros s Hs c Hc. specialize (Hs c Hc). unfold Js.not_space_at in Hs.
    destruct (Js.is_space c); [discriminate Hs | reflexivity]. }
  apply Hweak in Hl', Hd', Ht'.
  intros c Hc. rewrite !list_ascii_of_string_app in Hc. simpl in Hc.
  apply in_app_or in Hc as [Hc | [<- | Hc]]; [now apply Hl' | reflexivity | ].
  apply in_app_or in Hc as [Hc | [<- | Hc]];
    [now apply Hd' | reflexivity | now apply Ht'].
Qed.

(** The language of [phoneRegex], on lists of code units. *)
Lemma phoneRegex_matches (s : list ascii) :
  matches Server.phoneRegex s <->
  forallb Js.is_digit s = true /\ (length s = 10 \/ length s = 11).
Proof.
  unfold Server.phoneRegex, Range. split.
  - intros H. apply seq_inv in H as (s1 & s2 & -> & H1 & H2).
    apply matches_repeat_class in H1 as [Hl Hd].
    rewrite forallb_app, length_app, Hd, Hl. simpl in H2.
    unfold Opt in H2. inversion H2 as [ | | | ? ? ? HL | ? ? ? HR | | ]; subst.
    + apply seq_inv in HL as (t1 & t2 & -> & Ht1 & Ht2).
      apply matches_class in Ht1 as (c & -> & Hc).
      inversion Ht2; subst. simpl. rewrite Hc. split; [reflexivity | right; lia].
    + inversion HR; subst. simpl. split; [reflexivity | left; lia].
  - intros [Hd Hl].
    rewrite <- (firstn_skipn 10 s) in Hd |- *.
    rewrite forallb_app in Hd. apply andb_true_iff in Hd as [Hd1 Hd2].
    apply MSeq.
    + apply matches_repeat_class. split; [ | exact Hd1].
      rewrite length_firstn. lia.
    + assert (Hk : length (skipn 10 s) = 0 \/ length (skipn 10 s) = 1)
        by (rewrite length_skipn; lia).
      simpl. unfold Opt.
      destruct (skipn 10 s) as [ | c [ | c' t ] ]; simpl in *.
      * apply MAltR. constructor.
      * apply MAltL. apply (MSeq _ _ [c] []); [ | constructor].
        apply MClass. now apply andb_true_iff in Hd2 as [Hc _].
      * lia.
Qed.

(** [phoneRegex.test(s)] holds exactly for the strings of 10 or 11
    digits. *)
Lemma phoneRegex_test_digits (s : string) :
  test Server.phoneRegex s = true <-> digits_10_or_11 s.
Proof.
  unfold test, digits_10_or_11.
  rewrite accepts_matches, phoneRegex_matches, all_chars_forallb,
    list_ascii_length.
  reflexivity.
Qed.

End PatternFacts.

(** ** The roster reader *)

Module ReaderFacts.
Import Sheets JsObject GoogleSheetService Spec.

Lemma getAllStudents_run (w : World) :
  getAllStudents w = (roster (sheet w), after_reads 1 w).
Proof. reflexivity. Qed.

Lemma getGroupCounts_run (w : World) :
  getGroupCounts w
  = (fold_left count_student (roster (sheet w)) ∅, after_reads 1 w).
Proof. reflexivity. Qed.

Lemma isGroupFull_run (cap : Z) (g : string) (w : World) :
  isGroupFull cap g w
  = (at_least (or_zero (get (fold_left count_student (roster (sheet w)) ∅) g)) cap,
     after_reads 1 w).
Proof. reflexivity. Qed.

(** With the header in place an appended row lands below the last row. *)
Lemma append_with_header (values : Row) (s : Sheet) :
  header_present s ->
  append_A_E values s = mkSheet (header s) (data s ++ [values]).
Proof.
  unfold header_present, append_A_E, has_values. now intros ->.
Qed.

(** In a range without any value the row lands in row 1. *)
Lemma append_blank (values : Row) (s : Sheet) :
  has_values s = false ->
  append_A_E values s
  = mkSheet (values ++ drop (length values) (header s)) (data s).
Proof.
  unfold append_A_E. now intros ->.
Qed.

Lemma append_keeps_header (values : Row) (s : Sheet) :
  header_present s -> header_present (append_A_E values s).
Proof.
  intros H. now rewrite append_with_header.
Qed.

Lemma count_in_cons (g : string) (st : Student) (l : list Student) :
  count_in g (st :: l)
  = if String.eqb (group st) g then S (count_in g l) else count_in g l.
Proof.
  unfold count_in. simpl. destruct (String.eqb (group st) g); reflexivity.
Qed.

Lemma count_in_app (g : string) (l1 l2 : list Student) :
  count_in g (l1 ++ l2) = count_in g l1 + count_in g l2.
Proof.
  unfold count_in. rewrite List.filter_app, length_app. reflexivity.
Qed.

Lemma not_inherited_proto (g : string) :
  inherited g = false -> String.eqb g "__proto__" = false.
Proof.
  intros H. destruct (String.eqb_spec g "__proto__") as [-> | ];
    [discriminate H | reflexivity].
Qed.

(** Counting a student leaves the entries of the other groups alone. *)
Lemma count_student_other (counts : gmap string jsval) (st : Student)
    (g : string) :
  group st <> g -> get (count_student counts st) g = get counts g.
Proof.
  intros Hne. unfold count_student, set.
  destruct (String.eqb (group st) ""); simpl; [reflexivity | ].
  destruct (String.eqb (group st) "__proto__"); [reflexivity | ].
  unfold get. rewrite lookup_insert_ne by exact Hne. reflexivity.
Qed.

(** Counting a student of an ordinary group adds one to its entry. *)
Lemma count_student_same (counts : gmap string jsval) (st : Student)
    (n : nat) :
  group st <> "" -> inherited (group st) = false ->
  or_zero (get counts (group st)) = JNum n ->
  or_zero (get (count_student counts st) (group st)) = JNum (S n).
Proof.
  intros Hne Hinh Hn. unfold count_student, set.
  apply String.eqb_neq in Hne. rewrite Hne. simpl.
  rewrite (not_inherited_proto _ Hinh).
  unfold get at 1. rewrite lookup_insert_eq, Hn. simpl.
  rewrite Nat.add_1_r. reflexivity.
Qed.

(** The entry of an ordinary group is the number of its records. *)
Lemma counts_fold (g : string) (l : list Student) :
  g <> "" -> inherited g = false ->
  forall (counts : gmap string jsval) (n : nat),
    or_zero (get counts g) = JNum n ->
    or_zero (get (fold_left count_student l counts) g)
    = JNum (n + count_in g l).
Proof.
  intros Hne Hinh. induction l as [ | st l IH ]; intros counts n Hn; simpl.
  - rewrite Hn. f_equal. unfold count_in. simpl. lia.
  - rewrite count_in_cons. destruct (String.eqb_spec (group st) g) as [E | E].
    + rewrite (IH _ (S n)); [f_equal; lia | ].
      subst g. apply count_student_same; assumption.
    + apply IH. rewrite count_student_other by exact E. exact Hn.
Qed.

Lemma counts_ordinary (g : string) (l : list Student) :
  g <> "" -> inherited g = false ->
  or_zero (get (fold_left count_student l ∅) g) = JNum (count_in g l).
Proof.
  intros Hne Hinh.
  apply (counts_fold g l Hne Hinh ∅ 0).
  unfold get. rewrite lookup_empty, Hinh. reflexivity.
Qed.

(** A student without a group changes no entry. *)
Lemma count_student_empty (counts : gmap string jsval) (st : Student) :
  group st = "" -> count_student counts st = counts.
Proof.
  intros E. unfold count_student. rewrite E. reflexivity.
Qed.

(** The entry of the empty name is never written. *)
Lemma counts_empty_name (l : list Student) :
  forall counts : gmap string jsval,
    get (fold_left count_student l counts) "" = get counts "".
Proof.
  induction l as [ | st l IH ]; intros counts; simpl; [reflexivity | ].
  rewrite IH. destruct (String.eqb_spec (group st) "") as [E | E].
  - now rewrite count_student_empty.
  - now apply count_student_other.
Qed.

Lemma at_least_count (n : nat) (cap : Z) :
  at_least (JNum n) cap = true <-> (cap <= Z.of_nat n)%Z.
Proof. simpl. apply Z.leb_le. Qed.

End ReaderFacts.

(** ** The registration workflow, step by step *)

Module WorkflowFacts.
Import Sheets JsObject GoogleSheetService Server Spec ReaderFacts.

Section Workflow.
Variable GROUP_NAMES : list string.
Variable MAX_STUDENTS_PER_GROUP : Z.
Variable verifyRecaptcha : string -> bool.

Lemma email_takenb_spec (e : string) (students : list Student) :
  email_takenb e students = true <-> email_taken e students.
Proof.
  unfold email_takenb, email_taken, same_email. rewrite existsb_exists.
  split; intros (st & Hin & H); exists st; split; try assumption;
    now apply String.eqb_eq.
Qed.

Lemma phone_takenb_spec (p : string) (students : list Student) :
  phone_takenb p students = true <-> phone_taken p students.
Proof.
  unfold phone_takenb, phone_taken, same_phone. rewrite existsb_exists.
  split; intros (st & Hin & H); exists st; split; try assumption;
    now apply String.eqb_eq.
Qed.

Lemma checkDuplicate_run (e p : string) (w : World) :
  checkDuplicate e p w
  = (if email_takenb e (roster (sheet w))
     then mkDuplicateCheck true (Some "email")
     else if phone_takenb p (roster (sheet w))
          then mkDuplicateCheck true (Some "phone")
          else mkDuplicateCheck false None,
     after_reads 1 w).
Proof.
  unfold checkDuplicate, bind. rewrite getAllStudents_run.
  fold (email_takenb e (roster (sheet w))).
  fold (phone_takenb p (roster (sheet w))).
  destruct (email_takenb e _); [reflexivity | ].
  destruct (phone_takenb p _); reflexivity.
Qed.

(** Step 1: a submission with a missing field is answered at once. *)
Lemma register_missing (b : Body) (w : World) :
  fields_present b = false ->
  Server.register GROUP_NAMES MAX_STUDENTS_PER_GROUP verifyRecaptcha b w
  = (missing_fields, w).
Proof.
  unfold fields_present, Server.register. intros H.
  destruct (Js.truthy (body_name b)), (Js.truthy (body_email b)),
    (Js.truthy (body_phone b)), (Js.truthy (body_school b)),
    (Js.truthy (body_group b)); try discriminate H; reflexivity.
Qed.

(** Step 2: without a verified token nothing else is looked at. *)
Lemma register_unverified (b : Body) (w : World) :
  fields_present b = true -> verified verifyRecaptcha b = false ->
  Server.register GROUP_NAMES MAX_STUDENTS_PER_GROUP verifyRecaptcha b w
  = (recaptcha_required, w)
  \/ Server.register GROUP_NAMES MAX_STUDENTS_PER_GROUP verifyRecaptcha b w
     = (recaptcha_failed, w).
Proof.
  unfold fields_present, verified, Server.register. intros Hp Hv.
  rewrite !andb_true_iff in Hp. destruct Hp as [[[[-> ->] ->] ->] ->].
  cbn [negb orb].
  destruct (Js.truthy (recaptchaToken b)); cbn [negb andb] in *.
  - rewrite Hv. cbn [negb]. right. reflexivity.
  - left. reflexivity.
Qed.

Lemma register_token_missing (b : Body) (w : World) :
  fields_present b = true -> Js.truthy (recaptchaToken b) = false ->
  Server.register GROUP_NAMES MAX_STUDENTS_PER_GROUP verifyRecaptcha b w
  = (recaptcha_required, w).
Proof.
  unfold fields_present, Server.register. intros Hp Ht.
  rewrite !andb_true_iff in Hp. destruct Hp as [[[[-> ->] ->] ->] ->].
  rewrite Ht. reflexivity.
Qed.

Lemma register_token_refused (b : Body) (w : World) :
  fields_present b = true -> Js.truthy (recaptchaToken b) = true ->
  verifyRecaptcha (str (recaptchaToken b)) = false ->
  Server.register GROUP_NAMES MAX_STUDENTS_PER_GROUP verifyRecaptcha b w
  = (recaptcha_failed, w).
Proof.
  unfold fields_present, Server.register. intros Hp Ht Hv.
  rewrite !andb_true_iff in Hp. destruct Hp as [[[[-> ->] ->] ->] ->].
  rewrite Ht, Hv. reflexivity.
Qed.

(** Step 3 *)
Lemma register_invalid_email (b : Body) (w : World) :
  fields_present b = true -> verified verifyRecaptcha b = true ->
  email_valid b = false ->
  Server.register GROUP_NAMES MAX_STUDENTS_PER_GROUP verifyRecaptcha b w
  = (invalid_email, w).
Proof.
  unfold fields_present, verified, email_valid, Server.register.
  intros Hp Hv He.
  rewrite !andb_true_iff in Hp. destruct Hp as [[[[-> ->] ->] ->] ->].
  apply andb_true_iff in Hv as [-> ->]. cbn [negb orb].
  rewrite He. reflexivity.
Qed.

(** Step 4 *)
Lemma register_invalid_phone (b : Body) (w : World) :
  fields_present b = true -> verified verifyRecaptcha b = true ->
  email_valid b = true -> phone_valid b = false ->
  Server.register GROUP_NAMES MAX_STUDENTS_PER_GROUP verifyRecaptcha b w
  = (invalid_phone, w).
Proof.
  unfold fields_present, verified, email_valid, phone_valid, Server.register.
  intros Hp Hv He Hph.
  rewrite !andb_true_iff in Hp. destruct Hp as [[[[-> ->] ->] ->] ->].
  apply andb_true_iff in Hv as [-> ->]. cbn [negb orb].
  rewrite He, Hph. reflexivity.
Qed.

(** Step 5 *)
Lemma register_invalid_group (b : Body) (w : World) :
  fields_present b = true -> verified verifyRecaptcha b = true ->
  email_valid b = true -> phone_valid b = true ->
  group_configured GROUP_NAMES b = false ->
  Server.register GROUP_NAMES MAX_STUDENTS_PER_GROUP verifyRecaptcha b w
  = (invalid_group, w).
Proof.
  unfold fields_present, verified, email_valid, phone_valid,
    group_configured, Server.register.
  intros Hp Hv He Hph Hg.
  rewrite !andb_true_iff in Hp. destruct Hp as [[[[-> ->] ->] ->] ->].
  apply andb_true_iff in Hv as [-> ->]. cbn [negb orb].
  rewrite He, Hph, Hg. reflexivity.
Qed.

(** Steps 6 to 8: what becomes of a submission that reaches the store. *)
Lemma register_well_formed (b : Body) (w : World) :
  well_formed GROUP_NAMES verifyRecaptcha b = true ->
  Server.register GROUP_NAMES MAX_STUDENTS_PER_GROUP verifyRecaptcha b w
  = if email_takenb (str (body_email b)) (roster (sheet w))
    then (duplicate_email, after_reads 1 w)
    else if phone_takenb (str (body_phone b)) (roster (sheet w))
    then (duplicate_phone, after_reads 1 w)
    else if at_least (or_zero (get (fold_left count_student (roster (sheet w)) ∅)
                             (str (body_group b))))
               MAX_STUDENTS_PER_GROUP
    then (group_full, after_reads 2 w)
    else (registered, after_append b w).
Proof.
  unfold well_formed, fields_present, verified, email_valid, phone_valid,
    group_configured, Server.register.
  intros H. rewrite !andb_true_iff in H.
  destruct H as [[[[[[[[-> ->] ->] ->] ->] [-> ->]] He] Hph] Hg].
  cbn [negb orb]. rewrite He, Hph, Hg. cbn [negb].
  unfold bind at 1. rewrite checkDuplicate_run.
  destruct (email_takenb _ _); [reflexivity | ].
  destruct (phone_takenb _ _); [reflexivity | ].
  cbn [isDuplicate]. unfold bind at 1. rewrite isGroupFull_run.
  destruct (at_least _ _).
  - unfold ret, group_full, after_reads. cbn [sheet calls repeat].
    rewrite <- app_assoc. reflexivity.
  - unfold bind, ret, addStudent, values_append_A_E, after_reads,
      after_append, row_of, registered.
    cbn [sheet calls repeat name email phone school group].
    rewrite <- !app_assoc. reflexivity.
Qed.

End Workflow.
End WorkflowFacts.

(** ** The sum of the counts *)

Module SumFacts.
Import Sheets JsObject GoogleSheetService Spec ReaderFacts.

Lemma sum_counts_empty : sum_counts ∅ = 0.
Proof. unfold sum_counts. apply map_fold_empty. Qed.

Lemma sum_counts_fresh (counts : gmap string jsval) (k : string) (v : jsval) :
  counts !! k = None ->
  sum_counts (<[k := v]> counts)
  = match v with JNum n => n + sum_counts counts | JOther => sum_counts counts end.
Proof.
  intros Hk. unfold sum_counts. rewrite map_fold_insert_L; [reflexivity | | exact Hk].
  intros j1 j2 [n1 | ] [n2 | ] y _ _ _; lia.
Qed.

Lemma sum_counts_own (counts : gmap string jsval) (k : string) (v : jsval) :
  counts !! k = Some v ->
  sum_counts counts
  = match v with
    | JNum n => n + sum_counts (delete k counts)
    | JOther => sum_counts (delete k counts)
    end.
Proof.
  intros Hk. unfold sum_counts.
  rewrite (map_fold_delete_L _ _ k v counts); [reflexivity | | exact Hk].
  intros j1 j2 [n1 | ] [n2 | ] y _ _ _; lia.
Qed.

(** Counting one student raises the sum by at most one. *)
Lemma sum_counts_step (counts : gmap string jsval) (st : Student) :
  sum_counts (count_student counts st) <= S (sum_counts counts).
Proof.
  unfold count_student, set.
  destruct (String.eqb (group st) ""); simpl; [lia | ].
  destruct (String.eqb (group st) "__proto__"); [lia | ].
  unfold get. destruct (counts !! group st) as [v | ] eqn:Hk.
  - rewrite <- insert_delete_eq.
    rewrite sum_counts_fresh by apply lookup_delete_eq.
    rewrite (sum_counts_own counts _ v Hk).
    destruct v as [[ | n] | ]; simpl; lia.
  - rewrite sum_counts_fresh by exact Hk.
    destruct (inherited (group st)); simpl; lia.
Qed.

(** The sum of the counts is at most the number of records that name a
    group. *)
Lemma sum_counts_fold (l : list Student) :
  forall counts : gmap string jsval,
    sum_counts (fold_left count_student l counts)
    <= sum_counts counts
       + length (List.filter (fun st => negb (String.eqb (group st) "")) l).
Proof.
  induction l as [ | st l IH ]; intros counts; simpl; [lia | ].
  specialize (IH (count_student counts st)).
  destruct (String.eqb (group st) "") eqn:E; simpl.
  - apply String.eqb_eq in E. rewrite count_student_empty in IH |- * by exact E.
    exact IH.
  - pose proof (sum_counts_step counts st). lia.
Qed.

Lemma filter_named_lt (pre post : list Student) (st : Student) :
  group st = "" ->
  length (List.filter (fun st => negb (String.eqb (group st) ""))
            (pre ++ st :: post))
  < length (pre ++ st :: post).
Proof.
  intros E. rewrite List.filter_app, !length_app. simpl.
  rewrite E. simpl.
  pose proof (List.filter_length_le
                (fun st => negb (String.eqb (group st) "")) pre).
  pose proof (List.filter_length_le
                (fun st => negb (String.eqb (group st) "")) post).
  lia.
Qed.

End SumFacts.

(** * The claims *)

Import Sheets JsObject GoogleSheetService Server Spec.
Import PatternFacts ReaderFacts SumFacts WorkflowFacts.

Lemma or_empty_nth (row : Row) (i : nat) :
  Js.or_empty (row !! i) = nth i row "".
Proof.
  revert i. induction row as [ | cell row IH ]; intros [ | i ]; simpl;
    try reflexivity.
  apply IH.
Qed.

Lemma truthy_missing (v : option string) :
  missing v -> Js.truthy v = false.
Proof. intros [-> | ->]; reflexivity. Qed.

(** C4.  A submission in which the name, the email, the phone, the school
    or the group is absent (or is the empty string) is rejected with the
    message that all fields are required, and the world is left as it
    was: no row is appended and the store is not even read. *)
Theorem register_missing_field_atomic
    (GROUP_NAMES : list string) (MAX_STUDENTS_PER_GROUP : Z)
    (verifyRecaptcha : string -> bool) (b : Body) (w : World) :
  missing (body_name b) \/ missing (body_email b) \/ missing (body_phone b)
  \/ missing (body_school b) \/ missing (body_group b) ->
  register GROUP_NAMES MAX_STUDENTS_PER_GROUP verifyRecaptcha b w
  = (missing_fields, w).
Proof.
  intros H. apply register_missing. unfold fields_present.
  destruct H as [H | [H | [H | [H | H]]]]; apply truthy_missing in H;
    rewrite H; rewrite ?andb_false_r; reflexivity.
Qed.

Lemma register_missing_field_atomic_witness :
  register Sample.names5 5 Sample.accept_token
    (Sample.submission (Some "Chi") None (Some "0111222333") (Some "A"))
    Sample.one_row
  = (missing_fields, Sample.one_row).
Proof.
  apply register_missing_field_atomic.
  right; left. left. reflexivity.
Defined.

(** C8.  Two calls of [getAllStudents] with no write in between return
    the same sequence of records and leave the sheet as it was; the
    sequence is a function of the sheet alone: one record per row below
    the header, in order, each field the cell of its column, or the empty
    string where the row has no such cell. *)
Theorem getAllStudents_idempotent (w : World) :
  let (first, w1) := getAllStudents w in
  let (second, w2) := getAllStudents w1 in
  first = second
  /\ sheet w2 = sheet w
  /\ first = map (fun row =>
                    mkStudent (nth 0 row "") (nth 1 row "") (nth 2 row "")
                              (nth 3 row "") (nth 4 row ""))
                 (drop 1 (all_rows (sheet w))).
Proof.
  rewrite getAllStudents_run.
  rewrite (getAllStudents_run (after_reads 1 w)).
  split; [reflexivity | split; [reflexivity | ] ].
  unfold roster, all_rows. simpl. apply map_ext. intros row.
  unfold student_of_row. rewrite !or_empty_nth. reflexivity.
Qed.

(** C9.  When some record has the candidate's email up to letter case,
    [checkDuplicate] reports the field [email], whatever the phone
    numbers are: in particular when a record (the same or another) has
    the candidate's phone number as well. *)
Theorem checkDuplicate_email_first (e p : string) (w : World) :
  email_taken e (roster (sheet w)) ->
  phone_taken p (roster (sheet w)) ->
  fst (checkDuplicate e p w) = mkDuplicateCheck true (Some "email").
Proof.
  intros He _. rewrite checkDuplicate_run. simpl.
  apply email_takenb_spec in He. rewrite He. reflexivity.
Qed.

Lemma checkDuplicate_email_first_witness :
  fst (checkDuplicate "BINH@B.COM" "0123456789" Sample.two_rows)
  = mkDuplicateCheck true (Some "email").
Proof.
  apply checkDuplicate_email_first.
  - exists (student_of_row Sample.binh). split; [right; left | ]; reflexivity.
  - exists (student_of_row Sample.an). split; [left | ]; reflexivity.
Defined.

(** C10.  A row whose group cell is empty or missing is among the records
    [getAllStudents] returns, and the counts are those of the sheet
    without that row: so are the answers of [isGroupFull] and of
    [GET /api/groups].  With such a row in the sheet the counts add up to
    less than the number of records. *)
Theorem empty_group_row_uncounted
    (hdr row : Row) (before after : list Row) (log : list Call) :
  group (student_of_row row) = "" ->
  let w := mkWorld (mkSheet hdr (before ++ row :: after)) log in
  let w' := mkWorld (mkSheet hdr (before ++ after)) log in
  In (student_of_row row) (fst (getAllStudents w))
  /\ fst (getGroupCounts w) = fst (getGroupCounts w')
  /\ (forall cap g, fst (isGroupFull cap g w) = fst (isGroupFull cap g w'))
  /\ (forall names cap,
        fst (get_groups names cap w) = fst (get_groups names cap w'))
  /\ sum_counts (fst (getGroupCounts w)) < length (fst (getAllStudents w)).
Proof.
  intros E w w'.
  assert (Hc : fst (getGroupCounts w) = fst (getGroupCounts w')).
  { rewrite !getGroupCounts_run. unfold w, w', roster. simpl.
    rewrite !map_app, !fold_left_app. simpl.
    rewrite count_student_empty by exact E. reflexivity. }
  repeat split.
  - rewrite getAllStudents_run. unfold w, roster. simpl.
    rewrite map_app. apply in_or_app. right. left. reflexivity.
  - exact Hc.
  - intros cap g. unfold isGroupFull, bind.
    destruct (getGroupCounts w) as [c1 w1] eqn:E1.
    destruct (getGroupCounts w') as [c2 w2] eqn:E2.
    simpl in Hc |- *. now rewrite Hc.
  - intros names cap. unfold get_groups, bind.
    destruct (getGroupCounts w) as [c1 w1] eqn:E1.
    destruct (getGroupCounts w') as [c2 w2] eqn:E2.
    simpl in Hc |- *. now rewrite Hc.
  - rewrite getGroupCounts_run, getAllStudents_run. unfold w, roster. simpl.
    rewrite map_app. simpl.
    eapply Nat.le_lt_trans; [apply sum_counts_fold | ].
    rewrite sum_counts_empty. simpl. apply filter_named_lt, E.
Qed.

Lemma empty_group_row_uncounted_witness :
  sum_counts (fst (getGroupCounts Sample.two_rows))
  < length (fst (getAllStudents Sample.two_rows)).
Proof.
  apply (empty_group_row_uncounted Sample.head_row Sample.binh [Sample.an] []
           [] eq_refl).
Defined.

(** C3.  While the initialization has not settled the gate holds every
    request.  Once it has settled, the gate lets every request through to
    its handler, also when the initialization failed in production: the
    async function caught the error, its promise is fulfilled, and the
    answer 503 is never given. *)
Theorem init_gate_after_start :
  gate started = Held
  /\ gate (init_settles true false started) = Next
  /\ forall production initialized : bool,
       exited (init_settles production initialized started) = false ->
       gate (init_settles production initialized started) = Next.
Proof.
  split; [reflexivity | split; [reflexivity | ] ].
  intros [ | ] [ | ]; simpl; intros H; try reflexivity; discriminate H.
Qed.

Lemma get_groups_run (GROUP_NAMES : list string) (cap : Z) (w : World) :
  fst (get_groups GROUP_NAMES cap w)
  = map (fun g =>
           let c := or_zero (get (fold_left count_student
                                    (roster (sheet w)) ∅) g) in
           mkGroupStatus g c (at_least c cap) cap)
        GROUP_NAMES.
Proof. reflexivity. Qed.

(** C7, as the service has it.  [GET /api/groups] answers with one entry
    per configured name, in the configured order; every entry carries the
    configured capacity, and its full flag is its count compared with that
    capacity.  For a name that is not empty and is not a property that
    plain objects inherit, the count is the number of records of the
    group, zero included; for the empty name the count is zero. *)
Theorem get_groups_entries (GROUP_NAMES : list string) (cap : Z) (w : World) :
  let groups := fst (get_groups GROUP_NAMES cap w) in
  map gs_name groups = GROUP_NAMES
  /\ forall entry, In entry groups ->
       maxStudents entry = cap
       /\ isFull entry = at_least (count entry) (maxStudents entry)
       /\ (gs_name entry <> "" -> inherited (gs_name entry) = false ->
           count entry = JNum (count_in (gs_name entry) (roster (sheet w)))
           /\ (isFull entry = true <->
               (cap <= Z.of_nat (count_in (gs_name entry)
                                          (roster (sheet w))))%Z))
       /\ (gs_name entry = "" -> count entry = JNum 0).
Proof.
  intros groups. unfold groups. rewrite get_groups_run. split.
  - rewrite map_map. simpl. apply map_id.
  - intros entry Hin. apply in_map_iff in Hin as (g & <- & _). simpl.
    repeat split.
    + apply counts_ordinary; assumption.
    + rewrite counts_ordinary by assumption. apply at_least_count.
    + rewrite counts_ordinary by assumption. apply at_least_count.
    + intros ->. rewrite counts_empty_name. reflexivity.
Qed.

(** C7 as stated fails on a configured empty name (a trailing comma in
    the setting): its entry counts zero while a record has that group. *)
Lemma get_groups_empty_name_counterexample :
  exists entry,
    In entry (fst (get_groups ["A"; ""] 5 Sample.no_group_row))
    /\ gs_name entry = ""
    /\ count entry = JNum 0
    /\ count_in "" (roster (sheet Sample.no_group_row)) = 1.
Proof.
  exists (mkGroupStatus "" (JNum 0) false 5).
  split; [right; left; reflexivity | repeat split].
Qed.

(** The entry of a name that plain objects inherit is not a number. *)
Example get_groups_inherited_name :
  fst (get_groups ["constructor"] 5 Sample.one_row)
  = [mkGroupStatus "constructor" JOther false 5].
Proof. reflexivity. Qed.

(** C1, as the service has it.  For a group name that is not empty and is
    not a property that plain objects inherit: [isGroupFull] answers true
    exactly when the number of records of the group is at or above the
    capacity; a submission for the group that passes the checks before it
    (the five checks on the submission, and no duplicate) is rejected as
    full, with no row appended, when that number is at or above the
    capacity; and when that number is the capacity minus one, such a
    submission is registered, and on a sheet whose header is in place its
    row lands below the rows that were there and the number of records of
    the group becomes the capacity. *)
Theorem capacity_boundary
    (GROUP_NAMES : list string) (cap : Z) (verifyRecaptcha : string -> bool)
    (w : World) (g : string) :
  g <> "" -> inherited g = false ->
  let n := count_in g (roster (sheet w)) in
  (fst (isGroupFull cap g w) = true <-> (cap <= Z.of_nat n)%Z)
  /\ forall b : Body,
       well_formed GROUP_NAMES verifyRecaptcha b = true ->
       ~ email_taken (str (body_email b)) (roster (sheet w)) ->
       ~ phone_taken (str (body_phone b)) (roster (sheet w)) ->
       str (body_group b) = g ->
       ((cap <= Z.of_nat n)%Z ->
        register GROUP_NAMES cap verifyRecaptcha b w
        = (group_full, after_reads 2 w))
       /\ (Z.of_nat n = (cap - 1)%Z ->
           register GROUP_NAMES cap verifyRecaptcha b w
           = (registered, after_append b w)
           /\ (header_present (sheet w) ->
               sheet (after_append b w)
               = mkSheet (header (sheet w)) (data (sheet w) ++ [row_of b])
               /\ Z.of_nat
                    (count_in g (roster (sheet (after_append b w))))
                  = cap)).
Proof.
  intros Hne Hinh n.
  assert (Hfull : forall c, at_least (or_zero (get (fold_left count_student
                                  (roster (sheet w)) ∅) g)) c
                            = (c <=? Z.of_nat n)%Z).
  { intros c. rewrite counts_ordinary by assumption. reflexivity. }
  split.
  - rewrite isGroupFull_run. simpl. rewrite Hfull. apply Z.leb_le.
  - intros b Hwf He Hp Hg.
    rewrite (register_well_formed _ _ _ b w Hwf).
    rewrite <- email_takenb_spec in He. rewrite <- phone_takenb_spec in Hp.
    apply not_true_is_false in He, Hp. rewrite He, Hp, Hg, Hfull.
    split.
    + intros Hn. apply Z.leb_le in Hn. rewrite Hn. reflexivity.
    + intros Hn. assert (Hlt : (cap <=? Z.of_nat n)%Z = false)
        by (apply Z.leb_gt; lia).
      rewrite Hlt. split; [reflexivity | ]. intros Hhead.
      unfold after_append. cbn [sheet].
      rewrite append_with_header by exact Hhead.
      split; [reflexivity | ].
      unfold roster. cbn [data]. rewrite map_app. simpl.
      fold (roster (sheet w)). rewrite count_in_app.
      unfold count_in at 2. simpl. fold n.
      unfold row_of. simpl. rewrite Hg, String.eqb_refl. simpl. lia.
Qed.

Lemma capacity_boundary_witness :
  register Sample.names5 1 Sample.accept_token Sample.chi Sample.one_row
  = (group_full, after_reads 2 Sample.one_row)
  /\ register Sample.names5 2 Sample.accept_token Sample.chi Sample.one_row
     = (registered, after_append Sample.chi Sample.one_row)
  /\ Z.of_nat (count_in "A"
                 (roster (sheet (after_append Sample.chi Sample.one_row))))
     = 2%Z.
Proof.
  assert (Hne : "A" <> "") by discriminate.
  assert (He : ~ email_taken (str (body_email Sample.chi))
                             (roster (sheet Sample.one_row)))
    by (rewrite <- email_takenb_spec; discriminate).
  assert (Hp : ~ phone_taken (str (body_phone Sample.chi))
                             (roster (sheet Sample.one_row)))
    by (rewrite <- phone_takenb_spec; discriminate).
  split.
  - apply (capacity_boundary Sample.names5 1 Sample.accept_token
             Sample.one_row "A" Hne eq_refl);
      [reflexivity | exact He | exact Hp | reflexivity
      | apply Z.leb_le; reflexivity].
  - destruct (capacity_boundary Sample.names5 2 Sample.accept_token
                Sample.one_row "A" Hne eq_refl) as [_ H].
    destruct (H Sample.chi eq_refl He Hp eq_refl) as [_ Hreg].
    destruct (Hreg eq_refl) as [Hanswer Hrow].
    split; [exact Hanswer | ]. now apply Hrow.
Defined.

(** C1 as stated fails in three places.  On a configured empty name
    [isGroupFull] answers false whatever the number of records without a
    group; a submission for a full group that repeats a stored email is
    rejected as a duplicate, not as full; and on a sheet without any
    value, header included, the row of a registered submission lands in
    row 1, which the reads skip, so the count of its group stays where it
    was. *)
Lemma capacity_boundary_counterexample :
  (In "" ["A"; ""]
   /\ (1 <= Z.of_nat (count_in "" (roster (sheet Sample.no_group_row))))%Z
   /\ fst (isGroupFull 1 "" Sample.no_group_row) = false)
  /\ ((1 <= Z.of_nat (count_in "A" (roster (sheet Sample.one_row))))%Z
      /\ register Sample.names5 1 Sample.accept_token
           (Sample.submission (Some "Chi") (Some "a@B.com")
              (Some "0111222333") (Some "A"))
           Sample.one_row
         = (duplicate_email, after_reads 1 Sample.one_row))
  /\ (fst (register Sample.names5 1 Sample.accept_token Sample.chi
             (mkWorld (mkSheet [] []) []))
      = registered
      /\ count_in "A"
           (roster (sheet (snd (register Sample.names5 1
                                  Sample.accept_token Sample.chi
                                  (mkWorld (mkSheet [] []) [])))))
         = 0).
Proof.
  repeat split.
  - right. left. reflexivity.
  - apply Z.leb_le. reflexivity.
  - apply Z.leb_le. reflexivity.
Qed.

(** On a name that plain objects inherit [isGroupFull] never answers
    true. *)
Example isGroupFull_inherited_name :
  fst (isGroupFull 0 "constructor" Sample.one_row) = false.
Proof. reflexivity. Qed.

(** The workflow as a whole: which step answers a submission. *)
Lemma register_steps
    (GROUP_NAMES : list string) (cap : Z) (verifyRecaptcha : string -> bool)
    (b : Body) (w : World) :
  let answer := register GROUP_NAMES cap verifyRecaptcha b w in
  (fields_present b = false /\ answer = (missing_fields, w))
  \/ (fields_present b = true /\ verified verifyRecaptcha b = false
      /\ (answer = (recaptcha_required, w)
          \/ answer = (recaptcha_failed, w)))
  \/ (fields_present b = true /\ verified verifyRecaptcha b = true
      /\ email_valid b = false /\ answer = (invalid_email, w))
  \/ (fields_present b = true /\ verified verifyRecaptcha b = true
      /\ email_valid b = true /\ phone_valid b = false
      /\ answer = (invalid_phone, w))
  \/ (fields_present b = true /\ verified verifyRecaptcha b = true
      /\ email_valid b = true /\ phone_valid b = true
      /\ group_configured GROUP_NAMES b = false
      /\ answer = (invalid_group, w))
  \/ (well_formed GROUP_NAMES verifyRecaptcha b = true
      /\ (answer = (duplicate_email, after_reads 1 w)
          \/ answer = (duplicate_phone, after_reads 1 w)
          \/ answer = (group_full, after_reads 2 w)
          \/ answer = (registered, after_append b w))).
Proof.
  intros answer. unfold answer.
  destruct (fields_present b) eqn:Hp.
  2: { left. split; [reflexivity | now apply register_missing]. }
  destruct (verified verifyRecaptcha b) eqn:Hv.
  2: { right; left. repeat split. now apply register_unverified. }
  destruct (email_valid b) eqn:He.
  2: { right; right; left. repeat split. now apply register_invalid_email. }
  destruct (phone_valid b) eqn:Hph.
  2: { right; right; right; left. repeat split.
       now apply register_invalid_phone. }
  destruct (group_configured GROUP_NAMES b) eqn:Hg.
  2: { right; right; right; right; left. repeat split.
       now apply register_invalid_group. }
  right; right; right; right; right.
  assert (Hwf : well_formed GROUP_NAMES verifyRecaptcha b = true)
    by (unfold well_formed; now rewrite Hp, Hv, He, Hph, Hg).
  split; [exact Hwf | ]. rewrite (register_well_formed _ _ _ b w Hwf).
  destruct (email_takenb _ _); [now left | ].
  destruct (phone_takenb _ _); [now right; left | ].
  destruct (at_least _ _); [now right; right; left | now right; right; right].
Qed.

(** C5, as the service has it.  A submission whose email is not of the
    shape [local@domain.tld] is rejected, and the world is left as it was:
    the store is neither read nor written.  The rejection is the one for
    an invalid email when the submission has all its fields and a
    verified token.  Otherwise it is the rejection of the earlier step
    that fails: the one for missing fields when a field is missing; else
    the one that asks for the verification when the token is missing;
    else the one for a failed verification. *)
Theorem email_gate
    (GROUP_NAMES : list string) (cap : Z) (verifyRecaptcha : string -> bool)
    (b : Body) (w : World) (e : string) :
  body_email b = Some e -> ~ email_shape e ->
  register GROUP_NAMES cap verifyRecaptcha b w
  = (if negb (fields_present b) then missing_fields
     else if negb (Js.truthy (recaptchaToken b)) then recaptcha_required
     else if negb (verifyRecaptcha (str (recaptchaToken b)))
          then recaptcha_failed
          else invalid_email,
     w)
  /\ (exists msg,
        register GROUP_NAMES cap verifyRecaptcha b w = (reject msg, w))
  /\ (fields_present b = true -> verified verifyRecaptcha b = true ->
      register GROUP_NAMES cap verifyRecaptcha b w = (invalid_email, w)).
Proof.
  intros Hb Hshape.
  assert (He : email_valid b = false).
  { unfold email_valid. rewrite Hb. simpl.
    apply not_true_is_false. now rewrite emailRegex_test_shape. }
  assert (Hrun : register GROUP_NAMES cap verifyRecaptcha b w
                 = (if negb (fields_present b) then missing_fields
                    else if negb (Js.truthy (recaptchaToken b))
                         then recaptcha_required
                    else if negb (verifyRecaptcha (str (recaptchaToken b)))
                         then recaptcha_failed
                         else invalid_email,
                    w)).
  { destruct (fields_present b) eqn:Hp; cbn [negb].
    - destruct (Js.truthy (recaptchaToken b)) eqn:Ht; cbn [negb].
      + destruct (verifyRecaptcha (str (recaptchaToken b))) eqn:Hv;
          cbn [negb].
        * apply register_invalid_email; try assumption.
          unfold verified. now rewrite Ht, Hv.
        * now apply register_token_refused.
      + now apply register_token_missing.
    - now apply register_missing. }
  split; [exact Hrun | split].
  - rewrite Hrun. destruct (negb (fields_present b)); [now eexists | ].
    destruct (negb (Js.truthy (recaptchaToken b))); [now eexists | ].
    destruct (negb (verifyRecaptcha (str (recaptchaToken b))));
      now eexists.
  - intros Hp Hv. now apply register_invalid_email.
Qed.

Lemma email_gate_witness :
  register Sample.names5 5 Sample.accept_token
    (Sample.submission (Some "Chi") (Some "chi@b") (Some "0111222333")
       (Some "A"))
    Sample.one_row
  = (invalid_email, Sample.one_row).
Proof.
  apply (email_gate Sample.names5 5 Sample.accept_token _ _ "chi@b");
    try reflexivity.
  rewrite <- emailRegex_test_shape. discriminate.
Defined.

(** C5 as stated fails for a submission that an earlier step rejects: one
    without a verification token, or one without a name, is rejected for
    that reason, whatever its email. *)
Lemma email_gate_counterexample :
  (~ email_shape "chi@b")
  /\ register Sample.names5 5 Sample.accept_token
       (Sample.no_token "chi@b" "0111222333") Sample.one_row
     = (recaptcha_required, Sample.one_row)
  /\ register Sample.names5 5 Sample.accept_token
       (Sample.submission None (Some "chi@b") (Some "0111222333") (Some "A"))
       Sample.one_row
     = (missing_fields, Sample.one_row)
  /\ message recaptcha_required <> message invalid_email
  /\ message missing_fields <> message invalid_email.
Proof.
  split; [rewrite <- emailRegex_test_shape; discriminate | ].
  repeat split; discriminate.
Qed.

(** C6, as the service has it.  Take the phone of a submission and remove
    its spaces (any white space) and dashes.  When what remains is not a
    string of 10 or 11 digits the submission is rejected, with the world
    left as it was.  It is rejected for an invalid phone only if what
    remains is not a string of 10 or 11 digits; and a submission that has
    all its fields, a verified token and a valid email is rejected for an
    invalid phone exactly when what remains is not a string of 10 or 11
    digits. *)
Theorem phone_gate
    (GROUP_NAMES : list string) (cap : Z) (verifyRecaptcha : string -> bool)
    (b : Body) (w : World) (p : string) :
  body_phone b = Some p ->
  let answer := register GROUP_NAMES cap verifyRecaptcha b w in
  (~ digits_10_or_11 (normalize_phone p) ->
   exists msg, answer = (reject msg, w))
  /\ (fst answer = invalid_phone -> ~ digits_10_or_11 (normalize_phone p))
  /\ (fields_present b = true -> verified verifyRecaptcha b = true ->
      email_valid b = true ->
      (fst answer = invalid_phone <-> ~ digits_10_or_11 (normalize_phone p))
      /\ (~ digits_10_or_11 (normalize_phone p) ->
          answer = (invalid_phone, w))).
Proof.
  intros Hb answer.
  assert (Hvalid : phone_valid b = true <->
                   digits_10_or_11 (normalize_phone p)).
  { unfold phone_valid. rewrite Hb. simpl. apply phoneRegex_test_digits. }
  assert (Hsome : ~ digits_10_or_11 (normalize_phone p) ->
                  exists msg, answer = (reject msg, w)).
  { intros Hd. rewrite <- Hvalid in Hd. unfold answer.
    destruct (register_steps GROUP_NAMES cap verifyRecaptcha b w)
      as [[_ H] | [(_ & _ & [H | H]) | [(_ & _ & _ & H) | H]]];
      try (eexists; exact H).
    destruct H as [(_ & _ & _ & _ & H) | [(_ & _ & _ & _ & _ & H) | [H _]]];
      try (eexists; exact H).
    unfold well_formed in H. rewrite !andb_true_iff in H. tauto. }
  assert (Honly : fst answer = invalid_phone ->
                  ~ digits_10_or_11 (normalize_phone p)).
  { intros Ha. rewrite <- Hvalid. unfold answer in Ha.
    destruct (register_steps GROUP_NAMES cap verifyRecaptcha b w)
      as [[_ H] | [(_ & _ & [H | H]) | [(_ & _ & _ & H) | H]]];
      try (rewrite H in Ha; simpl in Ha; distinct_answers).
    destruct H as [(_ & _ & _ & Hph & _) | [(_ & _ & _ & _ & _ & H) | [_ H]]].
    - congruence.
    - rewrite H in Ha; simpl in Ha; distinct_answers.
    - destruct H as [H | [H | [H | H]]];
        rewrite H in Ha; simpl in Ha; distinct_answers. }
  split; [exact Hsome | ]. split; [exact Honly | ].
  intros Hp Hv He.
  assert (Hrej : ~ digits_10_or_11 (normalize_phone p) ->
                 answer = (invalid_phone, w)).
  { intros Hd. apply register_invalid_phone; try assumption.
    apply not_true_is_false. now rewrite Hvalid. }
  split; [ | exact Hrej].
  split; [exact Honly | ]. intros Hd. unfold answer in *.
  now rewrite (Hrej Hd).
Qed.

Lemma phone_gate_witness :
  let b := Sample.submission (Some "Chi") (Some "chi@b.com")
             (Some "0111-222 33") (Some "A") in
  register Sample.names5 5 Sample.accept_token b Sample.one_row
  = (invalid_phone, Sample.one_row).
Proof.
  intros b.
  apply (phone_gate Sample.names5 5 Sample.accept_token b Sample.one_row
           "0111-222 33" eq_refl); try reflexivity.
  rewrite <- phoneRegex_test_digits. discriminate.
Defined.

(** C6 as stated fails for a submission that an earlier step rejects: one
    without a verification token, or one with a malformed email, is
    rejected for that reason, whatever its phone. *)
Lemma phone_gate_counterexample :
  (~ digits_10_or_11 (normalize_phone "0111-222 33"))
  /\ register Sample.names5 5 Sample.accept_token
       (Sample.no_token "chi@b.com" "0111-222 33") Sample.one_row
     = (recaptcha_required, Sample.one_row)
  /\ register Sample.names5 5 Sample.accept_token
       (Sample.submission (Some "Chi") (Some "chi@b") (Some "0111-222 33")
          (Some "A"))
       Sample.one_row
     = (invalid_email, Sample.one_row)
  /\ message recaptcha_required <> message invalid_phone
  /\ message invalid_email <> message invalid_phone.
Proof.
  split; [rewrite <- phoneRegex_test_digits; discriminate | ].
  repeat split; discriminate.
Qed.

(** A phone written with spaces and dashes passes the check. *)
Example phone_formats_pass :
  phone_valid (Sample.submission (Some "Chi") (Some "chi@b.com")
                 (Some "0123-456 789") (Some "A")) = true
  /\ phone_valid (Sample.submission (Some "Chi") (Some "chi@b.com")
                    (Some "01234567890") (Some "A")) = true.
Proof. split; reflexivity. Qed.

(** C2, as the service has it.  A submission that passes the five checks
    made before the store is read is rejected as a duplicate exactly when
    some record has its email up to letter case, or its phone once spaces
    and dashes are removed from both.  The rejection names the email when
    an email matches, and the phone when only a phone matches; the sheet
    is left as it was. *)
Theorem duplicate_rejection
    (GROUP_NAMES : list string) (cap : Z) (verifyRecaptcha : string -> bool)
    (b : Body) (w : World) :
  well_formed GROUP_NAMES verifyRecaptcha b = true ->
  let students := roster (sheet w) in
  let e := str (body_email b) in
  let p := str (body_phone b) in
  let answer := register GROUP_NAMES cap verifyRecaptcha b w in
  (fst answer = duplicate_email \/ fst answer = duplicate_phone
   <-> email_taken e students \/ phone_taken p students)
  /\ (fst answer = duplicate_email <-> email_taken e students)
  /\ (fst answer = duplicate_phone
      <-> ~ email_taken e students /\ phone_taken p students)
  /\ (email_taken e students \/ phone_taken p students ->
      snd answer = after_reads 1 w).
Proof.
  intros Hwf students e p answer.
  assert (Hrun := register_well_formed GROUP_NAMES cap verifyRecaptcha b w Hwf).
  fold students e p answer in Hrun.
  pose proof (email_takenb_spec e students) as He.
  pose proof (phone_takenb_spec p students) as Hp.
  destruct (email_takenb e students).
  - assert (Het : email_taken e students) by now apply He.
    rewrite Hrun. simpl. repeat split; try tauto; try distinct_answers.
  - assert (Het : ~ email_taken e students)
      by (rewrite <- He; discriminate).
    destruct (phone_takenb p students).
    + assert (Hpt : phone_taken p students) by now apply Hp.
      rewrite Hrun. simpl. repeat split; try tauto; try distinct_answers.
    + assert (Hpt : ~ phone_taken p students)
        by (rewrite <- Hp; discriminate).
      destruct (at_least _ _); rewrite Hrun; simpl;
        repeat split; try tauto; try distinct_answers;
        intros [H | H]; distinct_answers.
Qed.

Lemma duplicate_rejection_witness :
  fst (register Sample.names5 5 Sample.accept_token
         (Sample.submission (Some "Chi") (Some "a@B.com")
            (Some "0111222333") (Some "B"))
         Sample.one_row)
  = duplicate_email
  /\ fst (register Sample.names5 5 Sample.accept_token
            (Sample.submission (Some "Chi") (Some "chi@b.com")
               (Some "0123456789") (Some "B"))
            Sample.one_row)
     = duplicate_phone.
Proof.
  split.
  - apply (duplicate_rejection Sample.names5 5 Sample.accept_token
             (Sample.submission (Some "Chi") (Some "a@B.com")
                (Some "0111222333") (Some "B"))
             Sample.one_row eq_refl).
    exists (student_of_row Sample.an). split; [left | ]; reflexivity.
  - apply (duplicate_rejection Sample.names5 5 Sample.accept_token
             (Sample.submission (Some "Chi") (Some "chi@b.com")
                (Some "0123456789") (Some "B"))
             Sample.one_row eq_refl).
    split.
    + rewrite <- email_takenb_spec. discriminate.
    + exists (student_of_row Sample.an). split; [left | ]; reflexivity.
Defined.

(** C2 as stated fails for a candidate that an earlier step rejects: one
    for a group that is not configured is rejected for that reason, also
    when its email is the email of a record. *)
Lemma duplicate_rejection_counterexample :
  email_taken "a@B.com" (roster (sheet Sample.one_row))
  /\ register Sample.names5 5 Sample.accept_token
       (Sample.submission (Some "Chi") (Some "a@B.com") (Some "0111222333")
          (Some "Z"))
       Sample.one_row
     = (invalid_group, Sample.one_row)
  /\ message invalid_group <> message duplicate_email.
Proof.
  split.
  - exists (student_of_row Sample.an). split; [left | ]; reflexivity.
  - split; [reflexivity | discriminate].
Qed.

(** The scenario of the specification: groups A and B of two places, an
    empty sheet; two students enter A, a third is turned away as the group
    is full, and B still takes a student. *)
Example two_groups_of_two :
  fst (Sample.serve ["A"; "B"] 2 Sample.accept_token
         [ Sample.submission (Some "An") (Some "an@b.com")
             (Some "0111222333") (Some "A");
           Sample.submission (Some "Binh") (Some "binh@b.com")
             (Some "0111222444") (Some "A");
           Sample.submission (Some "Chi") (Some "chi@b.com")
             (Some "0111222555") (Some "A");
           Sample.submission (Some "Chi") (Some "chi@b.com")
             (Some "0111222555") (Some "B") ]
         (mkWorld (mkSheet Sample.head_row []) []))
  = [registered; registered; group_full; registered].
Proof. reflexivity. Qed.

(** * Further properties of the code *)

Import Invariants.

(** ** The roster reader and the counts *)

Lemma student_of_row_cells (st : Student) :
  student_of_row [name st; email st; phone st; school st; group st] = st.
Proof. destruct st; reflexivity. Qed.

(** X1.  On a sheet whose header is in place, a student with a field that
    is not empty, written by [addStudent], is read back by
    [getAllStudents] as the last record, field for field, after the
    records that were there; the header stays.  On a sheet without any
    value the row lands in row 1 instead, and [getAllStudents] does not
    return the student. *)
Theorem addStudent_then_getAllStudents (st : Student) (w : World) :
  let w1 := snd (addStudent st w) in
  let row := [name st; email st; phone st; school st; group st] in
  (header_present (sheet w) -> row_has_value row = true ->
   fst (getAllStudents w1) = fst (getAllStudents w) ++ [st]
   /\ header (sheet w1) = header (sheet w))
  /\ (has_values (sheet w) = false ->
      fst (getAllStudents w1) = fst (getAllStudents w)
      /\ take 5 (header (sheet w1)) = row).
Proof.
  intros w1 row. unfold w1. rewrite !getAllStudents_run.
  unfold addStudent, values_append_A_E, roster. cbn [fst snd sheet].
  split.
  - intros Hhead _. rewrite append_with_header by exact Hhead. cbn [data header].
    rewrite map_app. simpl. now rewrite student_of_row_cells.
  - intros Hblank. rewrite append_blank by exact Hblank. cbn [data header].
    split; reflexivity.
Qed.

Lemma counts_snoc (l : list Student) (st : Student) :
  fold_left count_student (l ++ [st]) ∅
  = count_student (fold_left count_student l ∅) st.
Proof. now rewrite fold_left_app. Qed.

Lemma count_in_snoc (g : string) (l : list Student) (st : Student) :
  count_in g (l ++ [st])
  = count_in g l + (if String.eqb (group st) g then 1 else 0).
Proof.
  rewrite count_in_app. f_equal. unfold count_in. simpl.
  destruct (String.eqb (group st) g); reflexivity.
Qed.

(** The own properties of the counts object, for every name. *)
Lemma counts_entry (l : list Student) (g : string) :
  fold_left count_student l ∅ !! g = entry_of g l.
Proof.
  induction l as [ | st l IH ] using rev_ind.
  - simpl. rewrite lookup_empty. unfold entry_of.
    destruct (_ || _); reflexivity.
  - rewrite counts_snoc. set (c := fold_left count_student l ∅) in *.
    unfold entry_of in *. rewrite count_in_snoc.
    unfold count_student, set.
    destruct (String.eqb_spec (group st) "") as [E0 | E0]; simpl.
    { rewrite IH. destruct (String.eqb_spec g "") as [-> | Hg]; simpl;
        [reflexivity | ].
      destruct (String.eqb_spec (group st) g) as [E | E]; [congruence | ].
      now rewrite Nat.add_0_r. }
    destruct (String.eqb_spec (group st) "__proto__") as [Ep | Ep].
    { rewrite IH. destruct (String.eqb_spec g "") as [-> | Hg]; simpl;
        [reflexivity | ].
      destruct (String.eqb_spec g "__proto__") as [-> | Hp]; simpl;
        [reflexivity | ].
      destruct (String.eqb_spec (group st) g) as [E | E]; [congruence | ].
      now rewrite Nat.add_0_r. }
    destruct (String.eqb_spec (group st) g) as [E | E].
    + subst g. rewrite lookup_insert_eq.
      apply String.eqb_neq in E0, Ep. rewrite E0, Ep in *. simpl in *.
      unfold get. rewrite IH.
      destruct (count_in (group st) l) as [ | n ]; simpl.
      * destruct (inherited (group st)); reflexivity.
      * destruct (inherited (group st)); simpl; [reflexivity | ].
        now rewrite Nat.add_1_r.
    + rewrite lookup_insert_ne by exact E. rewrite IH.
      now rewrite Nat.add_0_r.
Qed.

(** X2.  The counts object of [getGroupCounts] has an entry for a name
    exactly when some record has that name as its group, the empty name
    and [__proto__] apart: groups without records are absent.  The entry
    of an ordinary name is the number of its records, never zero; the
    entry of a name that plain objects inherit is not a number. *)
Theorem getGroupCounts_entries (w : World) (g : string) :
  let counts := fst (getGroupCounts w) in
  let students := roster (sheet w) in
  counts !! g = entry_of g students
  /\ (is_Some (counts !! g) <->
      g <> "" /\ g <> "__proto__" /\ In g (map group students))
  /\ (forall n, counts !! g = Some (JNum n) ->
                inherited g = false /\ 0 < n /\ n = count_in g students).
Proof.
  intros counts students. unfold counts. rewrite getGroupCounts_run. simpl.
  fold students. rewrite counts_entry.
  assert (Hin : In g (map group students) <-> count_in g students <> 0).
  { unfold count_in. rewrite in_map_iff. split.
    - intros (st & E & Hst) H0. apply length_zero_iff_nil in H0.
      assert (Hf : In st (List.filter
                            (fun st => String.eqb (group st) g) students))
        by (apply filter_In; split; [exact Hst | now apply String.eqb_eq]).
      rewrite H0 in Hf. destruct Hf.
    - intros H0.
      destruct (List.filter (fun st => String.eqb (group st) g) students)
        as [ | st rest ] eqn:Hf; [now destruct H0 | ].
      assert (Hst : In st (List.filter
                             (fun st => String.eqb (group st) g) students))
        by (rewrite Hf; now left).
      apply filter_In in Hst as [Hst E]. apply String.eqb_eq in E.
      now exists st. }
  split; [reflexivity | ]. unfold entry_of. split.
  - destruct (String.eqb_spec g "") as [-> | Hg]; simpl.
    { split; [intros [x Hx]; discriminate Hx | intros [H _]; congruence]. }
    destruct (String.eqb_spec g "__proto__") as [-> | Hp]; simpl.
    { split; [intros [x Hx]; discriminate Hx | intros (_ & H & _); congruence]. }
    rewrite Hin. destruct (count_in g students) as [ | n ].
    + split; [intros [x Hx]; discriminate Hx | intros (_ & _ & H); congruence].
    + split; [intros _; repeat split; congruence | intros _; eauto].
  - intros n Hn. destruct (String.eqb g "" || String.eqb g "__proto__");
      [discriminate Hn | ].
    destruct (count_in g students) as [ | m ]; [discriminate Hn | ].
    destruct (inherited g); [discriminate Hn | ].
    injection Hn as <-. repeat split; lia.
Qed.

Lemma counted_snoc (l : list Student) (st : Student) :
  counted (l ++ [st])
  = counted l
    + (if negb (String.eqb (group st) "") && negb (inherited (group st))
       then 1 else 0).
Proof.
  unfold counted. rewrite List.filter_app, length_app. simpl.
  destruct (negb _ && negb _); reflexivity.
Qed.

Lemma sum_counts_records (l : list Student) :
  sum_counts (fold_left count_student l ∅) = counted l.
Proof.
  induction l as [ | st l IH ] using rev_ind; [apply sum_counts_empty | ].
  rewrite counts_snoc, counted_snoc, <- IH.
  pose proof (counts_entry l (group st)) as Hown.
  set (c := fold_left count_student l ∅) in *.
  unfold count_student, set, entry_of in *.
  destruct (String.eqb_spec (group st) "") as [E0 | E0]; simpl; [lia | ].
  destruct (String.eqb_spec (group st) "__proto__") as [Ep | Ep].
  { rewrite Ep. simpl. lia. }
  simpl in Hown. unfold get. rewrite Hown.
  destruct (count_in (group st) l) as [ | n ].
  - rewrite sum_counts_fresh by exact Hown.
    destruct (inherited (group st)); simpl; lia.
  - rewrite <- insert_delete_eq.
    rewrite sum_counts_fresh by apply lookup_delete_eq.
    rewrite (sum_counts_own c _ _ Hown).
    destruct (inherited (group st)); simpl; lia.
Qed.

(** X3.  The counts of [getGroupCounts] add up to the number of records
    that name a group, the names that plain objects inherit apart: no
    record is counted twice and none of them is lost. *)
Theorem getGroupCounts_total (w : World) :
  sum_counts (fst (getGroupCounts w)) = counted (roster (sheet w))
  /\ counted (roster (sheet w)) <= length (fst (getAllStudents w))
  /\ (Forall (fun st => group st <> "" /\ inherited (group st) = false)
             (roster (sheet w)) ->
      sum_counts (fst (getGroupCounts w)) = length (fst (getAllStudents w))).
Proof.
  rewrite getGroupCounts_run, getAllStudents_run. simpl.
  rewrite sum_counts_records. split; [reflexivity | ]. split.
  - unfold counted. apply List.filter_length_le.
  - intros Hall. unfold counted.
    induction Hall as [ | st l [Hne Hinh] _ IH ]; simpl; [reflexivity | ].
    apply String.eqb_neq in Hne. rewrite Hne, Hinh. simpl. now rewrite IH.
Qed.

Lemma entry_not_inherited (l : list Student) (g : string) :
  inherited g = false ->
  exists n, or_zero (get (fold_left count_student l ∅) g) = JNum n
            /\ (g <> "" -> n = count_in g l).
Proof.
  intros Hinh. destruct (String.eqb_spec g "") as [-> | Hg].
  - exists 0. rewrite counts_empty_name. split; [reflexivity | congruence].
  - exists (count_in g l). split; [now apply counts_ordinary | reflexivity].
Qed.

Lemma entry_inherited (l : list Student) (g : string) :
  inherited g = true ->
  or_zero (get (fold_left count_student l ∅) g) = JOther.
Proof.
  intros Hinh. unfold get. rewrite counts_entry. unfold entry_of.
  rewrite Hinh. destruct (_ || _); [reflexivity | ].
  destruct (count_in g l); reflexivity.
Qed.

Lemma sublist_List_filter {A : Type} (keep : A -> bool) (l : list A) :
  sublist (List.filter keep l) l.
Proof.
  induction l as [ | x l IH ]; simpl; [constructor | ].
  destruct (keep x); now constructor.
Qed.

Lemma getAvailableGroups_run (cap : Z) (allGroups : list string) (w : World) :
  fst (getAvailableGroups cap allGroups w)
  = List.filter
      (fun g => below (or_zero (get (fold_left count_student
                                       (roster (sheet w)) ∅) g)) cap)
      allGroups.
Proof. reflexivity. Qed.

(** X4.  [getAvailableGroups] keeps the given names in their order and
    drops some.  When the capacity is a number, a name that plain objects
    do not inherit is kept exactly when [isGroupFull] answers false for
    it; when the name is not empty either, that is exactly when the number
    of its records is below the capacity.  When the capacity is not a
    number, no name is kept and no group is full. *)
Theorem getAvailableGroups_not_full
    (c : Capacity.Capacity) (allGroups : list string) (w : World) :
  let available := fst (Capacity.getAvailableGroups c allGroups w) in
  sublist available allGroups
  /\ (forall cap, c = Capacity.Number cap ->
       Capacity.getAvailableGroups c allGroups w
       = getAvailableGroups cap allGroups w
       /\ (forall g, Capacity.isGroupFull c g w = isGroupFull cap g w)
       /\ forall g, inherited g = false ->
            (In g available <->
             In g allGroups /\ fst (Capacity.isGroupFull c g w) = false)
            /\ (g <> "" ->
                (In g available <->
                 In g allGroups
                 /\ (Z.of_nat (count_in g (roster (sheet w))) < cap)%Z)))
  /\ (c = Capacity.NotANumber ->
      available = []
      /\ forall g, fst (Capacity.isGroupFull c g w) = false).
Proof.
  intros available. split; [apply sublist_List_filter | split].
  - intros cap ->. split; [reflexivity | split; [reflexivity | ] ].
    intros g Hinh. unfold available.
    change (Capacity.getAvailableGroups (Capacity.Number cap) allGroups w)
      with (getAvailableGroups cap allGroups w).
    change (Capacity.isGroupFull (Capacity.Number cap) g w)
      with (isGroupFull cap g w).
    rewrite getAvailableGroups_run, isGroupFull_run. simpl.
    destruct (entry_not_inherited (roster (sheet w)) g Hinh) as (n & Hn & Hc).
    rewrite filter_In, Hn. simpl. split.
    + rewrite Z.ltb_lt, Z.leb_gt. reflexivity.
    + intros Hg. rewrite (Hc Hg), Z.ltb_lt. reflexivity.
  - intros ->. split; [ | reflexivity].
    unfold available, Capacity.getAvailableGroups, bind, ret. cbn [fst].
    destruct (getGroupCounts w) as [counts w1]. cbn [fst].
    induction allGroups as [ | g l IH ]; [reflexivity | exact IH].
Qed.

(** X5.  A group whose name is a property that plain objects inherit is
    never full and never available, whatever the sheet and the capacity;
    no submission for it is turned away for capacity. *)
Theorem inherited_name_never_full
    (GROUP_NAMES allGroups : list string) (cap : Z)
    (verifyRecaptcha : string -> bool) (g : string) (w : World) :
  inherited g = true ->
  fst (isGroupFull cap g w) = false
  /\ ~ In g (fst (getAvailableGroups cap allGroups w))
  /\ forall b : Body,
       str (body_group b) = g ->
       fst (register GROUP_NAMES cap verifyRecaptcha b w) <> group_full.
Proof.
  intros Hinh. split; [ | split].
  - rewrite isGroupFull_run. simpl. now rewrite entry_inherited.
  - rewrite getAvailableGroups_run, filter_In.
    rewrite entry_inherited by exact Hinh. simpl. intros [_ H]. discriminate H.
  - intros b Hg Ha.
    destruct (register_steps GROUP_NAMES cap verifyRecaptcha b w)
      as [[_ H] | [(_ & _ & [H | H]) | [(_ & _ & _ & H) | H]]];
      try (rewrite H in Ha; simpl in Ha; distinct_answers).
    destruct H as [(_ & _ & _ & _ & H) | [(_ & _ & _ & _ & _ & H) | [Hwf _]]];
      try (rewrite H in Ha; simpl in Ha; distinct_answers).
    rewrite (register_well_formed _ _ _ b w Hwf) in Ha.
    rewrite Hg, entry_inherited in Ha by exact Hinh. simpl in Ha.
    destruct (email_takenb _ _); [simpl in Ha; distinct_answers | ].
    destruct (phone_takenb _ _); simpl in Ha; distinct_answers.
Qed.

Lemma inherited_name_never_full_witness :
  fst (isGroupFull 0 "toString" Sample.two_rows) = false.
Proof.
  apply (inherited_name_never_full [] [] 0 Sample.accept_token "toString"
           Sample.two_rows eq_refl).
Defined.

(** ** Start-up *)

(** X6.  [initializeSheet] never touches the rows below the first.  It
    writes the header only when the cells A1 to E1 are all empty, and
    leaves the sheet as it is otherwise; after it the header is there, so
    a second run only reads. *)
Theorem initializeSheet_idempotent (s : Sheet) :
  let s1 := fst (SheetInit.initializeSheet s) in
  data s1 = data s
  /\ is_Some (SheetInit.values_get_A1_E1 s1)
  /\ SheetInit.initializeSheet s1 = (s1, [SheetInit.HeaderGet])
  /\ (is_Some (SheetInit.values_get_A1_E1 s) ->
      SheetInit.initializeSheet s = (s, [SheetInit.HeaderGet]))
  /\ (SheetInit.values_get_A1_E1 s = None ->
      take 5 (header s1) = SheetInit.titles
      /\ drop 5 (header s1) = drop 5 (header s)).
Proof.
  intros s1.
  assert (Hkeep : forall t, is_Some (SheetInit.values_get_A1_E1 t) ->
                            SheetInit.initializeSheet t
                            = (t, [SheetInit.HeaderGet])).
  { intros t [v Hv]. unfold SheetInit.initializeSheet. rewrite Hv.
    unfold SheetInit.values_get_A1_E1 in Hv.
    destruct (existsb _ _); [ | discriminate Hv].
    now injection Hv as <-. }
  assert (Hsome : is_Some (SheetInit.values_get_A1_E1 s1)).
  { unfold s1, SheetInit.initializeSheet.
    destruct (SheetInit.values_get_A1_E1 s) as [[ | row rows] | ] eqn:Hget;
      simpl; try (eexists; reflexivity).
    rewrite Hget. eexists; reflexivity. }
  repeat split.
  - unfold s1, SheetInit.initializeSheet.
    destruct (SheetInit.values_get_A1_E1 s) as [[ | row rows] | ];
      reflexivity.
  - exact Hsome.
  - now apply Hkeep.
  - apply Hkeep.
  - unfold s1, SheetInit.initializeSheet. rewrite H. reflexivity.
  - unfold s1, SheetInit.initializeSheet. rewrite H. reflexivity.
Qed.

(** After [initializeSheet] the header is in place. *)
Lemma initializeSheet_header_present (s : Sheet) :
  header_present (fst (SheetInit.initializeSheet s)).
Proof.
  unfold header_present, SheetInit.initializeSheet,
    SheetInit.values_get_A1_E1, row_has_value.
  destruct (existsb _ (take 5 (header s))) eqn:E; [exact E | reflexivity].
Qed.

(** ** The registration workflow as a whole *)

Lemma after_no_read (w : World) : after_reads 0 w = w.
Proof. destruct w. unfold after_reads. simpl. now rewrite app_nil_r. Qed.

(** Either the submission passes every check and its row is appended, or
    it is rejected and only reads were made. *)
Lemma register_result
    (GROUP_NAMES : list string) (cap : Z) (verifyRecaptcha : string -> bool)
    (b : Body) (w : World) :
  let answer := register GROUP_NAMES cap verifyRecaptcha b w in
  (answer = (registered, after_append b w)
   /\ well_formed GROUP_NAMES verifyRecaptcha b = true
   /\ email_takenb (str (body_email b)) (roster (sheet w)) = false
   /\ phone_takenb (str (body_phone b)) (roster (sheet w)) = false
   /\ fst (isGroupFull cap (str (body_group b)) w) = false)
  \/ (exists msg n, n <= 2 /\ answer = (reject msg, after_reads n w)
      /\ (well_formed GROUP_NAMES verifyRecaptcha b = true ->
          email_takenb (str (body_email b)) (roster (sheet w)) = false ->
          phone_takenb (str (body_phone b)) (roster (sheet w)) = false ->
          fst (isGroupFull cap (str (body_group b)) w) = true)).
Proof.
  intros answer. unfold answer.
  assert (Hnot : forall v : bool, v = false -> v = true -> False)
    by (intros v -> H; discriminate H).
  destruct (register_steps GROUP_NAMES cap verifyRecaptcha b w)
    as [[Hc H] | [(Hp & Hc & [H | H]) | [(Hp & Hv & Hc & H) | H]]].
  1-4: right; eexists; exists 0; rewrite after_no_read;
       (split; [lia | split; [exact H | ] ]);
       unfold well_formed; rewrite ?Hp, ?Hv, Hc; simpl;
       intros Hwf; discriminate Hwf.
  destruct H as [(Hp & Hv & He & Hc & H)
                | [(Hp & Hv & He & Hph & Hc & H) | [Hwf _]]].
  1-2: right; eexists; exists 0; rewrite after_no_read;
       (split; [lia | split; [exact H | ] ]);
       unfold well_formed; rewrite ?Hp, ?Hv, ?He, ?Hph, Hc; simpl;
       rewrite ?andb_false_r; intros Hwf; discriminate Hwf.
  rewrite (register_well_formed _ _ _ b w Hwf), isGroupFull_run. simpl.
  destruct (email_takenb _ _).
  { right. eexists; exists 1. split; [lia | split; [reflexivity | ] ].
    intros _ H; discriminate H. }
  destruct (phone_takenb _ _).
  { right. eexists; exists 1. split; [lia | split; [reflexivity | ] ].
    intros _ _ H; discriminate H. }
  destruct (at_least _ _).
  - right. eexists; exists 2. split; [lia | split; reflexivity].
  - left. repeat split; assumption.
Qed.

(** X7.  For a submission whose fields are absent or strings, and a
    store that answers.  When [POST /api/register] answers with success,
    the status is 200 and exactly one row was appended, the row of the
    submission, after two reads: on a sheet whose header is in place it
    lands below the rows that were there and the header stays; on a sheet
    without any value it lands in row 1.  When it answers 400, without
    success, the sheet is as it was and at most two reads of the data rows
    were made, nothing else. *)
Theorem register_outcome
    (GROUP_NAMES : list string) (cap : Z) (verifyRecaptcha : string -> bool)
    (b : Body) (w : World) :
  let answer := fst (register GROUP_NAMES cap verifyRecaptcha b w) in
  let w' := snd (register GROUP_NAMES cap verifyRecaptcha b w) in
  (success answer = true ->
   status answer = 200%Z
   /\ calls w' = calls w ++ [ValuesGet "Sheet1!A2:E"; ValuesGet "Sheet1!A2:E";
                             ValuesAppend "Sheet1!A:E" (row_of b)]
   /\ row_of b = [str (body_name b); str (body_email b); str (body_phone b);
                  str (body_school b); str (body_group b)]
   /\ (header_present (sheet w) ->
       header (sheet w') = header (sheet w)
       /\ data (sheet w') = data (sheet w) ++ [row_of b])
   /\ (has_values (sheet w) = false ->
       take 5 (header (sheet w')) = row_of b
       /\ data (sheet w') = data (sheet w)))
  /\ (status answer = 400%Z ->
      success answer = false
      /\ sheet w' = sheet w
      /\ exists n, n <= 2
           /\ calls w' = calls w ++ repeat (ValuesGet "Sheet1!A2:E") n).
Proof.
  intros answer w'. unfold answer, w'.
  destruct (register_result GROUP_NAMES cap verifyRecaptcha b w)
    as [(H & _) | (msg & n & Hn & H & _)]; rewrite H; cbn [fst snd].
  - split; [intros _ | intros H400; discriminate H400].
    unfold after_append. cbn [sheet calls].
    split; [reflexivity | split; [reflexivity | split; [reflexivity | ] ] ].
    split.
    + intros Hhead. rewrite append_with_header by exact Hhead.
      split; reflexivity.
    + intros Hblank. rewrite append_blank by exact Hblank.
      split; reflexivity.
  - split; [intros Hok; discriminate Hok | intros _].
    split; [reflexivity | split; [reflexivity | ] ].
    exists n. split; [exact Hn | reflexivity].
Qed.

(** X8.  A submission is registered exactly when it passes the five
    checks on the submission, no record has its email or its phone, and
    [isGroupFull] answers false for its group. *)
Theorem register_succeeds_iff
    (GROUP_NAMES : list string) (cap : Z) (verifyRecaptcha : string -> bool)
    (b : Body) (w : World) :
  success (fst (register GROUP_NAMES cap verifyRecaptcha b w)) = true
  <-> well_formed GROUP_NAMES verifyRecaptcha b = true
      /\ ~ email_taken (str (body_email b)) (roster (sheet w))
      /\ ~ phone_taken (str (body_phone b)) (roster (sheet w))
      /\ fst (isGroupFull cap (str (body_group b)) w) = false.
Proof.
  rewrite <- email_takenb_spec, <- phone_takenb_spec.
  destruct (register_result GROUP_NAMES cap verifyRecaptcha b w)
    as [(H & Hwf & He & Hp & Hf) | (msg & n & _ & H & Hfull)];
    rewrite H; unfold registered, ok, reject; cbn [fst success].
  - rewrite He, Hp. split; [ | reflexivity]. intros _.
    repeat split; try assumption; discriminate.
  - split; [discriminate | ]. intros (Hwf & He & Hp & Hf).
    apply not_true_is_false in He, Hp.
    rewrite (Hfull Hwf He Hp) in Hf. discriminate Hf.
Qed.

(** The record a submission is stored as, on a sheet whose range holds a
    value; on a sheet without any value the row lands in row 1 and the
    roster stays. *)
Lemma roster_after_append (b : Body) (w : World) :
  roster (sheet (after_append b w))
  = if has_values (sheet w)
    then roster (sheet w)
         ++ [mkStudent (str (body_name b)) (str (body_email b))
               (str (body_phone b)) (str (body_school b))
               (str (body_group b))]
    else roster (sheet w).
Proof.
  unfold after_append, roster, append_A_E. cbn [sheet].
  destruct (has_values (sheet w)); cbn [data]; [ | reflexivity].
  now rewrite map_app.
Qed.

(** What a request does to the roster: nothing, or one record more, and
    then every check was passed. *)
Lemma register_roster
    (GROUP_NAMES : list string) (cap : Z) (verifyRecaptcha : string -> bool)
    (b : Body) (w : World) :
  let students := roster (sheet w) in
  let students' :=
    roster (sheet (snd (register GROUP_NAMES cap verifyRecaptcha b w))) in
  students' = students
  \/ (students'
      = students
        ++ [mkStudent (str (body_name b)) (str (body_email b))
              (str (body_phone b)) (str (body_school b))
              (str (body_group b))]
      /\ well_formed GROUP_NAMES verifyRecaptcha b = true
      /\ ~ email_taken (str (body_email b)) students
      /\ ~ phone_taken (str (body_phone b)) students
      /\ fst (isGroupFull cap (str (body_group b)) w) = false).
Proof.
  intros students students'. unfold students', students.
  destruct (register_result GROUP_NAMES cap verifyRecaptcha b w)
    as [(H & Hwf & He & Hp & Hf) | (msg & n & _ & H & _)]; rewrite H.
  - cbn [snd]. rewrite roster_after_append.
    destruct (has_values (sheet w)); [right | now left].
    rewrite <- email_takenb_spec, <- phone_takenb_spec, He, Hp.
    repeat split; try assumption; discriminate.
  - left. reflexivity.
Qed.

(** The header stays in place whatever requests are served. *)
Lemma register_keeps_header
    (GROUP_NAMES : list string) (cap : Z) (verifyRecaptcha : string -> bool)
    (b : Body) (w : World) :
  header_present (sheet w) ->
  header_present
    (sheet (snd (register GROUP_NAMES cap verifyRecaptcha b w))).
Proof.
  intros Hhead.
  destruct (register_result GROUP_NAMES cap verifyRecaptcha b w)
    as [(H & _) | (msg & n & _ & H & _)]; rewrite H; cbn [snd].
  - unfold after_append. cbn [sheet]. now apply append_keeps_header.
  - exact Hhead.
Qed.

Lemma serve_cons
    (GROUP_NAMES : list string) (cap : Z) (verifyRecaptcha : string -> bool)
    (b : Body) (rest : list Body) (w : World) :
  snd (Sample.serve GROUP_NAMES cap verifyRecaptcha (b :: rest) w)
  = snd (Sample.serve GROUP_NAMES cap verifyRecaptcha rest
           (snd (register GROUP_NAMES cap verifyRecaptcha b w))).
Proof.
  simpl. destruct (register GROUP_NAMES cap verifyRecaptcha b w) as [a w1].
  simpl. now destruct (Sample.serve GROUP_NAMES cap verifyRecaptcha rest w1).
Qed.

(** A property of the roster that every request keeps is kept by every
    sequence of requests. *)
Lemma serve_invariant
    (GROUP_NAMES : list string) (cap : Z) (verifyRecaptcha : string -> bool)
    (P : list Student -> Prop) :
  (forall b w,
     P (roster (sheet w)) ->
     P (roster (sheet (snd (register GROUP_NAMES cap verifyRecaptcha b w)))))
  -> forall requests w,
       P (roster (sheet w)) ->
       P (roster (sheet (snd (Sample.serve GROUP_NAMES cap verifyRecaptcha
                                requests w)))).
Proof.
  intros Hstep requests. induction requests as [ | b rest IH ]; intros w Hw.
  - exact Hw.
  - rewrite serve_cons. apply IH, Hstep, Hw.
Qed.

(** X9.  On a sheet whose header is in place, once a submission is
    registered its email stays taken: whatever requests are served in
    between, a later submission that passes the five checks and carries
    that email, in any letter case, is rejected as a duplicate email and
    the sheet is not changed; so is the same submission sent again. *)
Theorem registered_email_stays_taken
    (GROUP_NAMES : list string) (cap : Z) (verifyRecaptcha : string -> bool)
    (b b' : Body) (between : list Body) (w : World) :
  header_present (sheet w) ->
  success (fst (register GROUP_NAMES cap verifyRecaptcha b w)) = true ->
  well_formed GROUP_NAMES verifyRecaptcha b' = true ->
  same_email (str (body_email b)) (str (body_email b')) ->
  let w1 := snd (register GROUP_NAMES cap verifyRecaptcha b w) in
  let w2 := snd (Sample.serve GROUP_NAMES cap verifyRecaptcha between w1) in
  register GROUP_NAMES cap verifyRecaptcha b' w2
  = (duplicate_email, after_reads 1 w2).
Proof.
  intros Hhead Hok Hwf Hsame w1 w2.
  assert (Hin : email_taken (str (body_email b')) (roster (sheet w1))).
  { unfold w1.
    destruct (register_result GROUP_NAMES cap verifyRecaptcha b w)
      as [(H & _) | (msg & n & _ & H & _)]; rewrite H in Hok |- *;
      [ | discriminate Hok].
    cbn [snd]. rewrite roster_after_append.
    unfold header_present in Hhead. unfold has_values. rewrite Hhead.
    cbn [orb].
    eexists. split; [apply in_or_app; right; left; reflexivity | exact Hsame]. }
  assert (Hin2 : email_taken (str (body_email b')) (roster (sheet w2))).
  { unfold w2.
    apply (serve_invariant GROUP_NAMES cap verifyRecaptcha
             (email_taken (str (body_email b')))); [ | exact Hin].
    intros b0 w0 (st & Hst & Hst').
    destruct (register_roster GROUP_NAMES cap verifyRecaptcha b0 w0)
      as [-> | [-> _] ]; exists st; split; try assumption.
    apply in_or_app. now left. }
  rewrite (register_well_formed _ _ _ b' w2 Hwf).
  apply email_takenb_spec in Hin2. now rewrite Hin2.
Qed.

Lemma registered_email_stays_taken_witness :
  register Sample.names5 5 Sample.accept_token
    (Sample.submission (Some "Chi") (Some "CHI@B.COM") (Some "0999000111")
       (Some "B"))
    (snd (Sample.serve Sample.names5 5 Sample.accept_token
            [Sample.submission (Some "Dung") (Some "dung@b.com")
               (Some "0888000111") (Some "A")]
            (snd (register Sample.names5 5 Sample.accept_token Sample.chi
                    Sample.one_row))))
  = (duplicate_email,
     after_reads 1
       (snd (Sample.serve Sample.names5 5 Sample.accept_token
               [Sample.submission (Some "Dung") (Some "dung@b.com")
                  (Some "0888000111") (Some "A")]
               (snd (register Sample.names5 5 Sample.accept_token Sample.chi
                       Sample.one_row))))).
Proof.
  apply (registered_email_stays_taken Sample.names5 5 Sample.accept_token
           Sample.chi); reflexivity.
Defined.

(** ** What sequences of registrations keep *)

Lemma ForallOrdPairs_snoc {A : Type} (R : A -> A -> Prop) (l : list A)
    (x : A) :
  ForallOrdPairs R l -> Forall (fun a => R a x) l ->
  ForallOrdPairs R (l ++ [x]).
Proof.
  induction 1 as [ | a l Ha _ IH ]; intros Hx; simpl.
  - constructor; constructor.
  - inversion Hx as [ | ? ? Hax Hlx ]; subst. constructor.
    + apply Forall_app. split; [exact Ha | ].
      constructor; [exact Hax | constructor].
    + apply IH, Hlx.
Qed.

Lemma register_keeps_distinct
    (GROUP_NAMES : list string) (cap : Z) (verifyRecaptcha : string -> bool)
    (b : Body) (w : World) :
  distinct_contacts (roster (sheet w)) ->
  distinct_contacts
    (roster (sheet (snd (register GROUP_NAMES cap verifyRecaptcha b w)))).
Proof.
  intros Hd.
  destruct (register_roster GROUP_NAMES cap verifyRecaptcha b w)
    as [-> | (-> & _ & He & Hp & _)]; [exact Hd | ].
  apply ForallOrdPairs_snoc; [exact Hd | ].
  apply List.Forall_forall. intros st Hst. simpl. split; intros H.
  - apply He. now exists st.
  - apply Hp. now exists st.
Qed.

(** X10.  Requests served one after the other keep the contacts distinct:
    when no two records of the sheet share an email up to letter case or a
    phone up to spaces and dashes, the same holds after any sequence of
    requests. *)
Theorem sequential_registrations_distinct
    (GROUP_NAMES : list string) (cap : Z) (verifyRecaptcha : string -> bool)
    (requests : list Body) (w : World) :
  distinct_contacts (roster (sheet w)) ->
  distinct_contacts
    (roster (sheet (snd (Sample.serve GROUP_NAMES cap verifyRecaptcha
                           requests w)))).
Proof.
  apply (serve_invariant GROUP_NAMES cap verifyRecaptcha distinct_contacts).
  intros b w0. apply register_keeps_distinct.
Qed.

Lemma sequential_registrations_distinct_witness :
  distinct_contacts
    (roster (sheet (snd (Sample.serve Sample.names5 5 Sample.accept_token
                           [Sample.chi; Sample.chi;
                            Sample.submission (Some "Dung")
                              (Some "Chi@B.com") (Some "0888000111")
                              (Some "A")]
                           Sample.one_row)))).
Proof.
  apply sequential_registrations_distinct.
  constructor; constructor.
Defined.

Lemma register_keeps_capacity
    (GROUP_NAMES : list string) (cap : Z) (verifyRecaptcha : string -> bool)
    (b : Body) (w : World) :
  within_capacity cap (roster (sheet w)) ->
  within_capacity cap
    (roster (sheet (snd (register GROUP_NAMES cap verifyRecaptcha b w)))).
Proof.
  intros Hc.
  destruct (register_roster GROUP_NAMES cap verifyRecaptcha b w)
    as [-> | (-> & _ & _ & _ & Hf)]; [exact Hc | ].
  intros g Hg Hinh Hin. rewrite count_in_snoc. simpl.
  destruct (String.eqb_spec (str (body_group b)) g) as [E | E].
  - rewrite E, isGroupFull_run in Hf. simpl in Hf.
    rewrite counts_ordinary in Hf by assumption. simpl in Hf.
    apply Z.leb_gt in Hf. lia.
  - rewrite Nat.add_0_r. apply Hc; try assumption.
    rewrite map_app in Hin. apply in_app_or in Hin as [Hin | [Hin | []]];
      [exact Hin | ]. simpl in Hin. congruence.
Qed.

(** X11.  Requests served one after the other never overfill a group:
    when no group with an ordinary name holds more records than the
    capacity, the same holds after any sequence of requests. *)
Theorem sequential_registrations_within_capacity
    (GROUP_NAMES : list string) (cap : Z) (verifyRecaptcha : string -> bool)
    (requests : list Body) (w : World) :
  within_capacity cap (roster (sheet w)) ->
  within_capacity cap
    (roster (sheet (snd (Sample.serve GROUP_NAMES cap verifyRecaptcha
                           requests w)))).
Proof.
  apply (serve_invariant GROUP_NAMES cap verifyRecaptcha
           (within_capacity cap)).
  intros b w0. apply register_keeps_capacity.
Qed.

Lemma sequential_registrations_within_capacity_witness :
  (Z.of_nat
     (count_in "A"
        (roster (sheet (snd (Sample.serve Sample.names5 1
                               Sample.accept_token
                               [Sample.chi;
                                Sample.submission (Some "Dung")
                                  (Some "dung@b.com") (Some "0888000111")
                                  (Some "A")]
                               (mkWorld (mkSheet Sample.head_row []) []))))))
   <=? 1)%Z = true.
Proof.
  apply Z.leb_le.
  apply (sequential_registrations_within_capacity Sample.names5 1
           Sample.accept_token).
  - intros g _ _ [].
  - discriminate.
  - reflexivity.
  - left. reflexivity.
Defined.

Lemma truthy_str (v : option string) :
  Js.truthy v = true -> str v <> "".
Proof.
  destruct v as [s | ]; simpl; [ | discriminate].
  intros H E. subst s. discriminate H.
Qed.

Lemma register_keeps_valid
    (GROUP_NAMES : list string) (cap : Z) (verifyRecaptcha : string -> bool)
    (b : Body) (w : World) :
  Forall (valid_record GROUP_NAMES) (roster (sheet w)) ->
  Forall (valid_record GROUP_NAMES)
    (roster (sheet (snd (register GROUP_NAMES cap verifyRecaptcha b w)))).
Proof.
  intros Hv.
  destruct (register_roster GROUP_NAMES cap verifyRecaptcha b w)
    as [-> | (-> & Hwf & _)]; [exact Hv | ].
  apply Forall_app. split; [exact Hv | ]. constructor; [ | constructor].
  unfold well_formed, fields_present, email_valid, phone_valid,
    group_configured in Hwf.
  rewrite !andb_true_iff in Hwf.
  destruct Hwf as [[[[[[[[Hn He] Hp] Hs] Hg] _] Hemail] Hphone] Hgroup].
  unfold valid_record. simpl. repeat split.
  - now apply truthy_str.
  - now apply truthy_str.
  - now apply emailRegex_test_shape.
  - now apply phoneRegex_test_digits.
  - now apply phoneRegex_test_digits.
  - now apply truthy_str.
  - apply existsb_exists in Hgroup as (g & Hin & E).
    apply String.eqb_eq in E. now rewrite E.
Qed.

(** X12.  Requests served one after the other store valid records only:
    when every record of the sheet has a name, a school, an email of the
    shape [local@domain.tld], a phone of 10 or 11 digits once spaces and
    dashes are removed, and a configured group, the same holds after any
    sequence of requests. *)
Theorem sequential_registrations_valid
    (GROUP_NAMES : list string) (cap : Z) (verifyRecaptcha : string -> bool)
    (requests : list Body) (w : World) :
  Forall (valid_record GROUP_NAMES) (roster (sheet w)) ->
  Forall (valid_record GROUP_NAMES)
    (roster (sheet (snd (Sample.serve GROUP_NAMES cap verifyRecaptcha
                           requests w)))).
Proof.
  apply (serve_invariant GROUP_NAMES cap verifyRecaptcha
           (Forall (valid_record GROUP_NAMES))).
  intros b w0. apply register_keeps_valid.
Qed.

Lemma sequential_registrations_valid_witness :
  Forall (valid_record Sample.names5)
    (roster (sheet (snd (Sample.serve Sample.names5 5 Sample.accept_token
                           [Sample.chi;
                            Sample.submission (Some "Dung") (Some "dung@b")
                              (Some "0888000111") (Some "A")]
                           (mkWorld (mkSheet Sample.head_row []) []))))).
Proof.
  apply sequential_registrations_valid. constructor.
Defined.

(** ** The configured group names *)

Lemma split_length (sep : ascii) (s : string) :
  length (JsText.split sep s) = S (JsText.occurrences sep s).
Proof.
  induction s as [ | c s IH ]; simpl; [reflexivity | ].
  destruct (Ascii.eqb c sep); simpl; [now rewrite IH | ].
  destruct (JsText.split sep s) as [ | piece pieces ]; simpl in *;
    [discriminate IH | exact IH].
Qed.

Lemma split_no_separator (sep : ascii) (s : string) :
  Forall (fun piece => JsText.occurrences sep piece = 0) (JsText.split sep s).
Proof.
  induction s as [ | c s IH ]; simpl; [now constructor | ].
  destruct (Ascii.eqb c sep) eqn:E; [now constructor | ].
  destruct (JsText.split sep s) as [ | piece pieces ].
  - constructor; [simpl; now rewrite E | constructor].
  - inversion IH; subst. constructor; [simpl; rewrite E; simpl | ]; assumption.
Qed.

Lemma trimStart_occurrences (c : ascii) (s : string) :
  JsText.occurrences c (JsText.trimStart s) <= JsText.occurrences c s.
Proof.
  induction s as [ | d s IH ]; simpl; [lia | ].
  destruct (Js.is_space d); simpl; lia.
Qed.

Lemma trimEnd_occurrences (c : ascii) (s : string) :
  JsText.occurrences c (JsText.trimEnd s) <= JsText.occurrences c s.
Proof.
  induction s as [ | d s IH ]; simpl; [lia | ].
  destruct (Js.is_space d && _); simpl; lia.
Qed.

Lemma trimStart_first (s : string) (c : ascii) :
  JsText.first_char (JsText.trimStart s) = Some c -> Js.is_space c = false.
Proof.
  induction s as [ | d s IH ]; simpl; [discriminate | ].
  destruct (Js.is_space d) eqn:E; [exact IH | ].
  simpl. intros H. injection H as <-. exact E.
Qed.

Lemma trimEnd_first (s : string) (c : ascii) :
  JsText.first_char (JsText.trimEnd s) = Some c ->
  JsText.first_char s = Some c.
Proof.
  destruct s as [ | d s ]; simpl; [discriminate | ].
  destruct (Js.is_space d && _); simpl; [discriminate | trivial].
Qed.

Lemma trimEnd_last (s : string) (c : ascii) :
  JsText.last_char (JsText.trimEnd s) = Some c -> Js.is_space c = false.
Proof.
  induction s as [ | d s IH ]; simpl; [discriminate | ].
  destruct (JsText.trimEnd s) as [ | e t ] eqn:Et.
  - simpl. rewrite andb_true_r. destruct (Js.is_space d) eqn:E; simpl;
      [discriminate | ].
    intros H. injection H as <-. exact E.
  - simpl (String.eqb _ _). rewrite andb_false_r. exact IH.
Qed.

Lemma trim_trimmed (s : string) : JsText.trimmed (JsText.trim s).
Proof.
  unfold JsText.trimmed, JsText.trim. split; intros c H.
  - apply trimEnd_first in H. now apply trimStart_first in H.
  - now apply trimEnd_last in H.
Qed.

Lemma trimStart_blank (s : string) :
  JsText.blank s <-> JsText.trimStart s = "".
Proof.
  unfold JsText.blank. induction s as [ | d s IH ]; simpl.
  - split; [reflexivity | intros _ c []].
  - destruct (Js.is_space d) eqn:E.
    + rewrite <- IH. split.
      * intros H c Hc. apply H. now right.
      * intros H c [<- | Hc]; [exact E | now apply H].
    + split; [ | discriminate]. intros H.
      rewrite (H d) in E by now left. discriminate E.
Qed.

Lemma trimEnd_blank (s : string) :
  JsText.trimEnd s = "" -> JsText.blank s.
Proof.
  unfold JsText.blank. induction s as [ | d s IH ]; simpl; [intros _ c [] | ].
  destruct (Js.is_space d) eqn:E; simpl; [ | discriminate].
  destruct (String.eqb_spec (JsText.trimEnd s) "") as [Et | Et];
    [ | discriminate].
  intros _ c [<- | Hc]; [exact E | now apply IH].
Qed.

Lemma trim_blank (s : string) : JsText.trim s = "" <-> JsText.blank s.
Proof.
  unfold JsText.trim. split.
  - intros H. apply trimEnd_blank, trimStart_blank in H.
    destruct (JsText.trimStart s) eqn:Et; [now apply trimStart_blank | ].
    assert (Hf : JsText.first_char (JsText.trimStart s) = Some a)
      by now rewrite Et.
    apply trimStart_first in Hf. simpl in H. rewrite Hf in H. discriminate H.
  - intros H. apply trimStart_blank in H. now rewrite H.
Qed.

Lemma parse_group_names_facts (setting n : string) :
  In n (Settings.parse_group_names setting) ->
  (exists piece, In piece (JsText.split "," setting) /\ JsText.trim piece = n)
  /\ JsText.occurrences "," n = 0 /\ JsText.trimmed n.
Proof.
  unfold Settings.parse_group_names. intros Hn.
  apply in_map_iff in Hn as (piece & <- & Hpiece).
  split; [now exists piece | ]. split; [ | apply trim_trimmed].
  pose proof (split_no_separator "," setting) as Hsep.
  rewrite List.Forall_forall in Hsep. specialize (Hsep piece Hpiece).
  pose proof (trimEnd_occurrences "," (JsText.trimStart piece)).
  pose proof (trimStart_occurrences "," piece).
  unfold JsText.trim. lia.
Qed.

(** X13.  The configured group names: one per comma of the setting plus
    one, so never an empty list; no name holds a comma, none begins or
    ends with white space; and the empty name is among them exactly when
    some piece between commas holds nothing but white space. *)
Theorem parse_group_names_shape (setting : string) :
  let names := Settings.parse_group_names setting in
  length names = S (JsText.occurrences "," setting)
  /\ Forall (fun n => JsText.occurrences "," n = 0 /\ JsText.trimmed n) names
  /\ (In "" names <->
      exists piece, In piece (JsText.split "," setting) /\ JsText.blank piece).
Proof.
  intros names. unfold names, Settings.parse_group_names.
  split; [now rewrite length_map, split_length | split].
  - apply List.Forall_forall. intros n Hn.
    now apply (parse_group_names_facts setting n) in Hn as (_ & Hc & Ht).
  - rewrite in_map_iff. split.
    + intros (piece & Ht & Hin). exists piece. split; [exact Hin | ].
      now apply trim_blank.
    + intros (piece & Hin & Hb). exists piece. split; [ | exact Hin].
      now apply trim_blank.
Qed.

(** X14.  With the names read from a setting, a submission is registered
    only for a group that is the trimmed text of a piece of the setting:
    its group is not empty, holds no comma, and neither begins nor ends
    with white space. *)
Theorem registered_group_is_configured
    (setting : string) (cap : Z) (verifyRecaptcha : string -> bool)
    (b : Body) (w : World) :
  success (fst (register (Settings.parse_group_names setting) cap
                  verifyRecaptcha b w)) = true ->
  let g := str (body_group b) in
  (exists piece, In piece (JsText.split "," setting) /\ JsText.trim piece = g)
  /\ g <> "" /\ JsText.occurrences "," g = 0 /\ JsText.trimmed g.
Proof.
  intros Hok g.
  destruct (register_result (Settings.parse_group_names setting) cap
              verifyRecaptcha b w)
    as [(_ & Hwf & _) | (msg & n & _ & H & _)];
    [ | rewrite H in Hok; discriminate Hok].
  unfold well_formed, fields_present, group_configured in Hwf.
  rewrite !andb_true_iff in Hwf.
  destruct Hwf as [[[[[[[[_ _] _] _] Hg] _] _] _] Hin].
  apply existsb_exists in Hin as (n & Hin & E). apply String.eqb_eq in E.
  fold g in E. subst n.
  destruct (parse_group_names_facts setting g Hin) as (Hpiece & Hc & Ht).
  split; [exact Hpiece | ].
  split; [now apply truthy_str | split; assumption].
Qed.

Lemma registered_group_is_configured_witness :
  JsText.trimmed "Group B".
Proof.
  apply (registered_group_is_configured " Group A , Group B ," 5
           Sample.accept_token
           (Sample.submission (Some "Chi") (Some "chi@b.com")
              (Some "0111222333") (Some "Group B"))
           Sample.one_row eq_refl).
Defined.

(** ** The verification of the token *)

(** X15.  With [verifyRecaptcha] as the server has it, a submission is
    registered only if the secret key is set, the submission carries a
    token, the verification service received exactly that key and that
    token and answered, and its answer parsed to an object whose [success]
    is [true].  Without a secret key, or when the request to the service
    fails, no submission is registered and the store is not accessed. *)
Theorem registration_needs_verification
    (GROUP_NAMES : list string) (cap : Z)
    (RECAPTCHA_SECRET_KEY : option string)
    (siteverify : string -> Recaptcha.SiteVerify)
    (success_is_true : string -> option bool)
    (b : Body) (w : World) :
  let verify := Recaptcha.verifyRecaptcha RECAPTCHA_SECRET_KEY siteverify
                  success_is_true in
  (success (fst (register GROUP_NAMES cap verify b w)) = true ->
   exists key token data,
     RECAPTCHA_SECRET_KEY = Some key /\ key <> ""
     /\ recaptchaToken b = Some token /\ token <> ""
     /\ siteverify ("secret=" ++ key ++ "&response=" ++ token)%string
        = Recaptcha.Received data
     /\ success_is_true data = Some true)
  /\ (Js.truthy RECAPTCHA_SECRET_KEY = false
      \/ (forall post, siteverify post = Recaptcha.RequestError) ->
      exists msg, register GROUP_NAMES cap verify b w = (reject msg, w)).
Proof.
  intros verify. split.
  - intros Hok.
    destruct (register_result GROUP_NAMES cap verify b w)
      as [(_ & Hwf & _) | (msg & n & _ & H & _)];
      [ | rewrite H in Hok; discriminate Hok].
    unfold well_formed, verified in Hwf. rewrite !andb_true_iff in Hwf.
    destruct Hwf as [[[[_ [Ht Hv]] _] _] _].
    unfold verify, Recaptcha.verifyRecaptcha in Hv.
    destruct RECAPTCHA_SECRET_KEY as [key | ] eqn:Ek; simpl in Hv;
      [ | discriminate Hv].
    destruct (recaptchaToken b) as [token | ] eqn:Etok; simpl in Ht, Hv;
      [ | discriminate Ht].
    destruct (String.eqb_spec key "") as [-> | Hk]; simpl in Hv;
      [discriminate Hv | ].
    destruct (String.eqb_spec token "") as [-> | Htok]; simpl in Ht;
      [discriminate Ht | ].
    destruct (siteverify _) as [ | data ] eqn:Es; [discriminate Hv | ].
    destruct (success_is_true data) as [[ | ] | ] eqn:Ed;
      try discriminate Hv.
    exists key, token, data. repeat split; assumption.
  - intros Hoff.
    assert (Hv : verified verify b = false).
    { unfold verified, verify, Recaptcha.verifyRecaptcha.
      destruct Hoff as [-> | Hoff]; simpl; [apply andb_false_r | ].
      destruct (Js.truthy RECAPTCHA_SECRET_KEY); simpl;
        [ | apply andb_false_r].
      rewrite Hoff. apply andb_false_r. }
    destruct (register_steps GROUP_NAMES cap verify b w)
      as [[_ H] | [(_ & _ & [H | H]) | [(_ & Hv' & _) | H]]];
      try (eexists; exact H); try congruence.
    destruct H as [(_ & Hv' & _) | [(_ & Hv' & _) | [Hwf _]]];
      try congruence.
    unfold well_formed in Hwf. rewrite Hv in Hwf.
    rewrite andb_false_r in Hwf. discriminate Hwf.
Qed.

Lemma registration_needs_verification_witness :
  exists key token data,
    Some "secret" = Some key /\ key <> ""
    /\ recaptchaToken Sample.chi = Some token /\ token <> ""
    /\ (fun _ : string => Recaptcha.Received "yes")
         ("secret=" ++ key ++ "&response=" ++ token)%string
       = Recaptcha.Received data
    /\ (fun data : string => Some (String.eqb data "yes")) data = Some true.
Proof.
  apply (registration_needs_verification Sample.names5 5 (Some "secret")
           (fun _ => Recaptcha.Received "yes")
           (fun data => Some (String.eqb data "yes"))
           Sample.chi Sample.one_row).
  reflexivity.
Defined.

(** ** The client *)

Lemma string_length_append (s t : string) :
  String.length (s ++ t) = String.length s + String.length t.
Proof.
  induction s as [ | a s IH ]; [reflexivity | ].
  change (S (String.length (s ++ t)) = S (String.length s + String.length t)).
  now rewrite IH.
Qed.

Lemma escape_char_cases (c : ascii) :
  (Client.is_markup c = false /\ Client.escape_char c = String c "")
  \/ (c = "&"%char /\ Client.escape_char c = "&amp;")
  \/ (c = "<"%char /\ Client.escape_char c = "&lt;")
  \/ (c = ">"%char /\ Client.escape_char c = "&gt;")
  \/ (c = "034"%char /\ Client.escape_char c = "&quot;")
  \/ (c = "'"%char /\ Client.escape_char c = "&#039;").
Proof.
  unfold Client.is_markup, Client.escape_char.
  destruct (Ascii.eqb_spec c "&") as [-> | ?]; [now right; left | ].
  destruct (Ascii.eqb_spec c "<") as [-> | ?]; [now right; right; left | ].
  destruct (Ascii.eqb_spec c ">") as [-> | ?];
    [now right; right; right; left | ].
  destruct (Ascii.eqb_spec c "034") as [-> | ?];
    [now right; right; right; right; left | ].
  destruct (Ascii.eqb_spec c "'") as [-> | ?];
    [now right; right; right; right; right | ].
  now left.
Qed.

(** X16.  The text [escapeHtml] returns holds no angle bracket and no
    quote, single or double; a text without any of the five characters it
    replaces is returned as it is; and the result is never shorter than
    the text. *)
Theorem escapeHtml_safe (text : string) :
  all_chars (fun c => negb (Ascii.eqb c "<" || Ascii.eqb c ">"
                            || Ascii.eqb c "034" || Ascii.eqb c "'"))
            (Client.escapeHtml text)
  /\ (all_chars (fun c => negb (Client.is_markup c)) text ->
      Client.escapeHtml text = text)
  /\ String.length text <= String.length (Client.escapeHtml text).
Proof.
  induction text as [ | c text (IHsafe & IHid & IHlen) ]; simpl.
  - split; [intros c [] | split; [reflexivity | lia] ].
  - split; [ | split].
    + intros d Hd. rewrite list_ascii_of_string_app in Hd.
      apply in_app_or in Hd as [Hd | Hd]; [ | now apply IHsafe].
      destruct (escape_char_cases c)
        as [[Hm E] | [[_ E] | [[_ E] | [[_ E] | [[_ E] | [_ E]]]]]];
        rewrite E in Hd; simpl in Hd;
        repeat (destruct Hd as [<- | Hd]; [try reflexivity | ]);
        try destruct Hd.
      unfold Client.is_markup in Hm.
      destruct (Ascii.eqb c "&"); [discriminate Hm | ]. exact (f_equal negb Hm).
    + intros Hall.
      assert (Hc : Client.is_markup c = false).
      { specialize (Hall c (or_introl eq_refl)).
        now apply negb_true_iff in Hall. }
      destruct (escape_char_cases c)
        as [[_ E] | [[-> _] | [[-> _] | [[-> _] | [[-> _] | [-> _]]]]]];
        try discriminate Hc.
      rewrite E. simpl. f_equal. apply IHid.
      intros d Hd. apply Hall. now right.
    + rewrite string_length_append.
      destruct (escape_char_cases c)
        as [[_ E] | [[_ E] | [[_ E] | [[_ E] | [[_ E] | [_ E]]]]]];
        rewrite E; simpl; lia.
Qed.

(** X17.  [escapeHtml] loses nothing: two texts with the same escaped
    form are the same text. *)
Theorem escapeHtml_injective (s t : string) :
  Client.escapeHtml s = Client.escapeHtml t -> s = t.
Proof.
  revert t. induction s as [ | c s IH ]; intros [ | d t ];
    cbn [Client.escapeHtml]; intros H.
  - reflexivity.
  - destruct (escape_char_cases d)
      as [[_ E] | [[_ E] | [[_ E] | [[_ E] | [[_ E] | [_ E]]]]]];
      rewrite E in H; cbv [String.append] in H; discriminate H.
  - destruct (escape_char_cases c)
      as [[_ E] | [[_ E] | [[_ E] | [[_ E] | [[_ E] | [_ E]]]]]];
      rewrite E in H; cbv [String.append] in H; discriminate H.
  - destruct (escape_char_cases c)
      as [[Hc Ec] | [[Hc Ec] | [[Hc Ec] | [[Hc Ec] | [[Hc Ec] | [Hc Ec]]]]]];
      destruct (escape_char_cases d)
        as [[Hd Ed] | [[Hd Ed] | [[Hd Ed] | [[Hd Ed] | [[Hd Ed] | [Hd Ed]]]]]];
      rewrite Ec, Ed in H; cbv [String.append] in H;
      try discriminate H;
      try (injection H as H; subst c d; f_equal; now apply IH);
      try (injection H as -> H; f_equal; now apply IH);
      try (injection H as Hx _; rewrite Hx in Hc; discriminate Hc);
      try (injection H as Hx _; rewrite <- Hx in Hd; discriminate Hd).
Qed.

Lemma escapeHtml_injective_witness :
  "<b>Tom & Jerry</b>" = "<b>Tom & Jerry</b>".
Proof.
  apply (escapeHtml_injective "<b>Tom & Jerry</b>" "<b>Tom & Jerry</b>"
           eq_refl).
Defined.

Lemma register_token_present
    (GROUP_NAMES : list string) (cap : Z) (verifyRecaptcha : string -> bool)
    (b : Body) (w : World) :
  fields_present b = true -> Js.truthy (recaptchaToken b) = true ->
  fst (register GROUP_NAMES cap verifyRecaptcha b w) <> missing_fields
  /\ fst (register GROUP_NAMES cap verifyRecaptcha b w) <> recaptcha_required.
Proof.
  intros Hp Ht.
  assert (Hfailed : verified verifyRecaptcha b = false ->
                    register GROUP_NAMES cap verifyRecaptcha b w
                    = (recaptcha_failed, w)).
  { unfold fields_present, verified, Server.register in *. intros Hv.
    rewrite !andb_true_iff in Hp. destruct Hp as [[[[-> ->] ->] ->] ->].
    rewrite Ht in *. simpl in Hv. cbn [negb orb]. rewrite Hv. reflexivity. }
  destruct (register_steps GROUP_NAMES cap verifyRecaptcha b w)
    as [[Hc _] | [(_ & Hv & _) | [(_ & _ & _ & H) | H]]].
  - congruence.
  - rewrite (Hfailed Hv). split; intros H; distinct_answers.
  - rewrite H. split; intros H'; distinct_answers.
  - destruct H as [(_ & _ & _ & _ & H) | [(_ & _ & _ & _ & _ & H) | [_ H]]].
    + rewrite H. split; intros H'; distinct_answers.
    + rewrite H. split; intros H'; distinct_answers.
    + destruct H as [H | [H | [H | H]]]; rewrite H;
        split; intros H'; distinct_answers.
Qed.

(** X18.  The form of the client posts a body only when, once trimmed,
    the name, the email, the phone and the school are not empty, a group
    is selected and the verification widget has answered; the body carries
    the trimmed values.  The server never answers such a body that fields
    are missing or that the verification is required. *)
Theorem submitted_form_has_fields
    (GROUP_NAMES : list string) (cap : Z) (verifyRecaptcha : string -> bool)
    (f : Client.Form) (b : Body) (w : World) :
  Client.submit f = Some b ->
  b = mkBody (Some (JsText.trim (Client.input_name f)))
        (Some (JsText.trim (Client.input_email f)))
        (Some (JsText.trim (Client.input_phone f)))
        (Some (JsText.trim (Client.input_school f)))
        (Some (Client.select_group f))
        (Some (Client.recaptchaResponse f))
  /\ ~ JsText.blank (Client.input_name f)
  /\ ~ JsText.blank (Client.input_email f)
  /\ ~ JsText.blank (Client.input_phone f)
  /\ ~ JsText.blank (Client.input_school f)
  /\ fst (register GROUP_NAMES cap verifyRecaptcha b w) <> missing_fields
  /\ fst (register GROUP_NAMES cap verifyRecaptcha b w) <> recaptcha_required.
Proof.
  unfold Client.submit. intros H.
  destruct (String.eqb_spec (JsText.trim (Client.input_name f)) "")
    as [ | Hn]; [discriminate H | ].
  destruct (String.eqb_spec (JsText.trim (Client.input_email f)) "")
    as [ | He]; [discriminate H | ].
  destruct (String.eqb_spec (JsText.trim (Client.input_phone f)) "")
    as [ | Hp]; [discriminate H | ].
  destruct (String.eqb_spec (JsText.trim (Client.input_school f)) "")
    as [ | Hs]; [discriminate H | ].
  destruct (String.eqb_spec (Client.select_group f) "")
    as [ | Hg]; [discriminate H | ].
  destruct (String.eqb_spec (Client.recaptchaResponse f) "")
    as [ | Hr]; [discriminate H | ].
  simpl in H. injection H as <-.
  rewrite <- !trim_blank.
  repeat (split; [assumption || reflexivity | ]).
  apply String.eqb_neq in Hn, He, Hp, Hs, Hg, Hr.
  apply register_token_present.
  - unfold fields_present. simpl. now rewrite Hn, He, Hp, Hs, Hg.
  - simpl. now rewrite Hr.
Qed.

Lemma submitted_form_has_fields_witness :
  let b := mkBody (Some "Chi") (Some "chi@b.com") (Some "0111 222 333")
             (Some "School 3") (Some "A") (Some "token") in
  fst (register Sample.names5 5 Sample.accept_token b Sample.one_row)
  <> missing_fields
  /\ fst (register Sample.names5 5 Sample.accept_token b Sample.one_row)
     <> recaptcha_required.
Proof.
  intros b.
  apply (submitted_form_has_fields Sample.names5 5 Sample.accept_token
           (Client.mkForm "  Chi " "chi@b.com " " 0111 222 333" "School 3"
              "A" "token")
           b Sample.one_row eq_refl).
Defined.

(** ** The earlier server *)

Lemma legacy_register_run
    (GROUP_NAMES : list string) (cap : Z) (b : Body) (w : World) :
  Legacy.register GROUP_NAMES cap b w
  = if negb (fields_present b) then (missing_fields, w)
    else if negb (email_valid b) then (invalid_email, w)
    else if negb (phone_valid b) then (invalid_phone, w)
    else if negb (group_configured GROUP_NAMES b) then (invalid_group, w)
    else if fst (isGroupFull cap (str (body_group b)) w)
    then (group_full, after_reads 1 w)
    else (registered,
          mkWorld (append_A_E (row_of b) (sheet w))
                  (calls w ++ [ValuesGet "Sheet1!A2:E";
                               ValuesAppend "Sheet1!A:E" (row_of b)])).
Proof.
  unfold Legacy.register, fields_present, email_valid, phone_valid,
    group_configured.
  destruct (Js.truthy (body_name b)), (Js.truthy (body_email b)),
    (Js.truthy (body_phone b)), (Js.truthy (body_school b)),
    (Js.truthy (body_group b)); try reflexivity.
  cbn [negb orb andb].
  destruct (Regex.test emailRegex _); [ | reflexivity].
  destruct (Regex.test phoneRegex _); [ | reflexivity].
  destruct (existsb _ _); [ | reflexivity].
  cbn [negb]. unfold bind at 1. rewrite isGroupFull_run. cbn [fst].
  destruct (at_least _ _); [reflexivity | ].
  unfold bind, ret, addStudent, values_append_A_E, after_reads, row_of,
    registered.
  cbn [sheet calls repeat name email phone school group].
  rewrite <- !app_assoc. reflexivity.
Qed.

(** X19.  For a submission whose fields are absent or strings, and a
    store that answers.  The earlier [POST /api/register] never answers
    that the verification is required or failed, nor that the email or
    the phone exists already.  For a submission whose token is verified
    and whose email and phone are not in the sheet, it gives the answer of
    the present one and leaves the same sheet.  For a submission that
    passes the five checks of the present one, whose email or phone is in
    the sheet and whose group is not full, the present one rejects it and
    leaves the sheet as it was, and the earlier one registers it and
    appends its row. *)
Theorem legacy_register_agrees
    (GROUP_NAMES : list string) (cap : Z) (verifyRecaptcha : string -> bool)
    (b : Body) (w : World) :
  let old := Legacy.register GROUP_NAMES cap b w in
  let new := register GROUP_NAMES cap verifyRecaptcha b w in
  (forall r, In r [recaptcha_required; recaptcha_failed; duplicate_email;
                   duplicate_phone] ->
             fst old <> r)
  /\ (verified verifyRecaptcha b = true ->
      ~ email_taken (str (body_email b)) (roster (sheet w)) ->
      ~ phone_taken (str (body_phone b)) (roster (sheet w)) ->
      fst old = fst new /\ sheet (snd old) = sheet (snd new))
  /\ (well_formed GROUP_NAMES verifyRecaptcha b = true ->
      email_taken (str (body_email b)) (roster (sheet w))
      \/ phone_taken (str (body_phone b)) (roster (sheet w)) ->
      fst (isGroupFull cap (str (body_group b)) w) = false ->
      success (fst new) = false /\ sheet (snd new) = sheet w
      /\ fst old = registered
      /\ sheet (snd old) = append_A_E (row_of b) (sheet w)).
Proof.
  intros old new. unfold old, new. rewrite legacy_register_run.
  split; [ | split].
  - intros r Hr Ha.
    assert (Hin : In r [missing_fields; invalid_email; invalid_phone;
                        invalid_group; group_full; registered]).
    { rewrite <- Ha.
      destruct (negb (fields_present b)); [now left | ].
      destruct (negb (email_valid b)); [now right; left | ].
      destruct (negb (phone_valid b)); [now right; right; left | ].
      destruct (negb (group_configured GROUP_NAMES b));
        [now right; right; right; left | ].
      destruct (fst (isGroupFull _ _ _)); cbn [fst In];
        [do 4 right; left | do 5 right; left]; reflexivity. }
    cbn [In] in Hr, Hin.
    destruct Hr as [<- | [<- | [<- | [<- | []]]]];
      destruct Hin as [H | [H | [H | [H | [H | [H | []]]]]]];
      distinct_answers.
  - intros Hv He Hp.
    rewrite <- email_takenb_spec in He. rewrite <- phone_takenb_spec in Hp.
    apply not_true_is_false in He, Hp.
    destruct (fields_present b) eqn:Hf; cbn [negb].
    2: { now rewrite register_missing. }
    destruct (email_valid b) eqn:Hem; cbn [negb].
    2: { now rewrite register_invalid_email. }
    destruct (phone_valid b) eqn:Hph; cbn [negb].
    2: { now rewrite register_invalid_phone. }
    destruct (group_configured GROUP_NAMES b) eqn:Hg; cbn [negb].
    2: { now rewrite register_invalid_group. }
    rewrite register_well_formed
      by (unfold well_formed; now rewrite Hf, Hv, Hem, Hph, Hg).
    rewrite He, Hp, isGroupFull_run. cbn [fst].
    destruct (at_least _ _); split; reflexivity.
  - intros Hwf Htaken Hfull.
    rewrite (register_well_formed _ _ _ b w Hwf), Hfull.
    unfold well_formed in Hwf. rewrite !andb_true_iff in Hwf.
    destruct Hwf as [[[[-> _] ->] ->] ->]. cbn [negb fst snd sheet].
    rewrite <- email_takenb_spec, <- phone_takenb_spec in Htaken.
    destruct (email_takenb _ _); [repeat split | ].
    destruct (phone_takenb _ _); [repeat split | ].
    destruct Htaken as [H | H]; discriminate H.
Qed.

Lemma legacy_register_agrees_witness :
  fst (Legacy.register Sample.names5 5 Sample.chi Sample.one_row)
  = fst (register Sample.names5 5 Sample.accept_token Sample.chi
           Sample.one_row)
  /\ sheet (snd (Legacy.register Sample.names5 5 Sample.chi Sample.one_row))
     = sheet (snd (register Sample.names5 5 Sample.accept_token Sample.chi
                     Sample.one_row)).
Proof.
  apply (proj1 (proj2 (legacy_register_agrees Sample.names5 5
                         Sample.accept_token Sample.chi Sample.one_row))).
  - reflexivity.
  - rewrite <- email_takenb_spec. discriminate.
  - rewrite <- phone_takenb_spec. discriminate.
Defined.

(** The earlier server stores a second record with an email that is
    taken. *)
Example legacy_register_stores_duplicate :
  fst (Legacy.register Sample.names5 5
         (Sample.submission (Some "Chi") (Some "a@B.com")
            (Some "0111222333") (Some "A"))
         Sample.one_row)
  = registered.
Proof. reflexivity. Qed.

(** ** The email pattern, from the side of the user *)

Lemma occurrences_append (c : ascii) (s t : string) :
  JsText.occurrences c (s ++ t)
  = JsText.occurrences c s + JsText.occurrences c t.
Proof.
  induction s as [ | a s IH ]; [reflexivity | ].
  change (String a s ++ t)%string with (String a (s ++ t)).
  simpl. rewrite IH. lia.
Qed.

Lemma occurrences_none (cls : ascii -> bool) (c : ascii) (s : string) :
  cls c = false -> all_chars cls s -> JsText.occurrences c s = 0.
Proof.
  intros Hc. unfold all_chars. induction s as [ | a s IH ]; simpl;
    [reflexivity | ].
  intros Hall. rewrite IH by (intros d Hd; apply Hall; now right).
  destruct (Ascii.eqb_spec a c) as [-> | ]; [ | reflexivity].
  rewrite (Hall c) in Hc by now left. discriminate Hc.
Qed.

Lemma last_char_append (s t : string) :
  t <> "" -> JsText.last_char (s ++ t) = JsText.last_char t.
Proof.
  intros Ht. induction s as [ | a s IH ]; [reflexivity | ].
  change (String a s ++ t)%string with (String a (s ++ t)).
  simpl. rewrite IH.
  destruct (s ++ t)%string eqn:E; [ | reflexivity].
  destruct s; cbv [String.append] in E; [congruence | discriminate E].
Qed.

Lemma last_char_in (s : string) (c : ascii) :
  JsText.last_char s = Some c -> In c (list_ascii_of_string s).
Proof.
  induction s as [ | a s IH ]; simpl; [discriminate | ].
  destruct s as [ | b s ]; [intros H; injection H as <-; now left | ].
  intros H. right. now apply IH.
Qed.

(** X20.  An email that passes the format check of the server holds
    exactly one at sign, which is neither its first nor its last
    character, at least one dot, no white space, and at least five
    characters. *)
Theorem accepted_email_facts (e : string) :
  Regex.test emailRegex e = true ->
  JsText.occurrences "@" e = 1
  /\ 1 <= JsText.occurrences "." e
  /\ all_chars (fun c => negb (Js.is_space c)) e
  /\ JsText.first_char e <> Some "@"%char
  /\ JsText.last_char e <> Some "@"%char
  /\ 5 <= String.length e.
Proof.
  intros Hok. apply emailRegex_test_shape in Hok.
  pose proof (email_shape_words e Hok) as (_ & _ & _ & _ & _ & Hspace).
  destruct Hok as (l & d & t & -> & Hl & Hd & Ht & Hl' & Hd' & Ht').
  assert (Hat : forall s, all_chars Js.not_space_at s ->
                          JsText.occurrences "@" s = 0)
    by (intros s; now apply occurrences_none).
  repeat split.
  - rewrite !occurrences_append, (Hat l), (Hat d), (Hat t) by assumption.
    reflexivity.
  - rewrite !occurrences_append. simpl. lia.
  - exact Hspace.
  - destruct l as [ | a l ]; [congruence | ].
    cbv [String.append]. fold String.append. simpl. intros H.
    injection H as ->. specialize (Hl' "@"%char (or_introl eq_refl)).
    discriminate Hl'.
  - rewrite !last_char_append; try assumption; try discriminate.
    + intros H. apply last_char_in, Ht' in H. discriminate H.
    + destruct d; [congruence | ]. cbv [String.append]. discriminate.
  - rewrite !string_length_append. simpl.
    destruct l; [congruence | ]. destruct d; [congruence | ].
    destruct t; [congruence | ]. simpl. lia.
Qed.

Lemma accepted_email_facts_witness :
  JsText.occurrences "@" "chi@b.com" = 1
  /\ 1 <= JsText.occurrences "." "chi@b.com"
  /\ all_chars (fun c => negb (Js.is_space c)) "chi@b.com"
  /\ JsText.first_char "chi@b.com" <> Some "@"%char
  /\ JsText.last_char "chi@b.com" <> Some "@"%char
  /\ 5 <= String.length "chi@b.com".
Proof.
  apply accepted_email_facts. reflexivity.
Defined.

(** ** Phones and duplicates, at the level of the service *)

Lemma remove_class_in (cls : ascii -> bool) (s : string) (c : ascii) :
  In c (list_ascii_of_string (Js.remove_class cls s))
  <-> In c (list_ascii_of_string s) /\ cls c = false.
Proof.
  induction s as [ | a s IH ]; simpl; [tauto | ].
  destruct (cls a) eqn:E; simpl; rewrite IH.
  - split; [tauto | ]. intros [[<- | H] Hc]; [congruence | tauto].
  - split; [intros [<- | H]; tauto | tauto].
Qed.

Lemma remove_class_clean (cls : ascii -> bool) (s : string) :
  (forall c, In c (list_ascii_of_string s) -> cls c = false) ->
  Js.remove_class cls s = s.
Proof.
  induction s as [ | a s IH ]; simpl; intros H; [reflexivity | ].
  rewrite (H a) by now left. f_equal. apply IH. intros c Hc. apply H.
  now right.
Qed.

(** X21.  The phone as the server compares it, [phone.replace(/[\s-]/g,
    '')], keeps the characters of the phone that are neither white space
    nor a dash, in their order, and nothing else; normalizing it again
    changes nothing.  A phone that passes the format check is made of
    digits, white space and dashes only. *)
Theorem normalize_phone_facts (p : string) :
  (forall c, In c (list_ascii_of_string (normalize_phone p))
             <-> In c (list_ascii_of_string p)
                 /\ Js.is_space_or_dash c = false)
  /\ normalize_phone (normalize_phone p) = normalize_phone p
  /\ (all_chars (fun c => negb (Js.is_space_or_dash c)) p ->
      normalize_phone p = p)
  /\ (Regex.test phoneRegex (normalize_phone p) = true ->
      all_chars (fun c => Js.is_digit c || Js.is_space_or_dash c) p).
Proof.
  unfold normalize_phone. split; [ | split; [ | split] ].
  - intros c. apply remove_class_in.
  - apply remove_class_clean. intros c Hc. now apply remove_class_in in Hc.
  - intros H. apply remove_class_clean. intros c Hc.
    apply negb_true_iff. now apply H.
  - intros Hok c Hc. apply phoneRegex_test_digits in Hok as [Hd _].
    destruct (Js.is_space_or_dash c) eqn:E; [apply orb_true_r | ].
    rewrite orb_false_r. apply Hd. apply remove_class_in. now split.
Qed.

(** X22.  [checkDuplicate] reads the data rows once and changes nothing.
    It reports a duplicate exactly when a record has the email up to
    letter case or the phone up to spaces and dashes; the field is the
    email when an email matches, the phone when only a phone matches, and
    absent when nothing matches.  A row without an email cell is a record
    with the empty email: it matches the empty email. *)
Theorem checkDuplicate_result (e p : string) (w : World) :
  let result := fst (checkDuplicate e p w) in
  let students := roster (sheet w) in
  snd (checkDuplicate e p w) = after_reads 1 w
  /\ (isDuplicate result = true
      <-> email_taken e students \/ phone_taken p students)
  /\ (field result = Some "email" <-> email_taken e students)
  /\ (field result = Some "phone"
      <-> ~ email_taken e students /\ phone_taken p students)
  /\ (field result = None <-> isDuplicate result = false)
  /\ ((exists row, In row (data (sheet w)) /\ length row <= 1) ->
      checkDuplicate "" p w
      = (mkDuplicateCheck true (Some "email"), after_reads 1 w)).
Proof.
  intros result students. unfold result. rewrite !checkDuplicate_run.
  fold students. cbn [fst snd].
  pose proof (email_takenb_spec e students) as He.
  pose proof (phone_takenb_spec p students) as Hp.
  split; [reflexivity | ].
  assert (Hrow : (exists row, In row (data (sheet w)) /\ length row <= 1) ->
                 email_takenb "" students = true).
  { intros (row & Hin & Hlen). apply email_takenb_spec.
    exists (student_of_row row). split.
    - unfold students, roster. now apply in_map.
    - destruct row as [ | c0 [ | c1 row ] ]; simpl in Hlen; try lia;
        reflexivity. }
  destruct (email_takenb e students).
  - assert (email_taken e students) by now apply He.
    cbn [isDuplicate field]. repeat split; try tauto; try discriminate.
    intros Hr. now rewrite (Hrow Hr).
  - assert (~ email_taken e students) by (rewrite <- He; discriminate).
    destruct (phone_takenb p students).
    + assert (phone_taken p students) by now apply Hp.
      cbn [isDuplicate field]. repeat split; try tauto; try discriminate.
      intros Hr. now rewrite (Hrow Hr).
    + assert (~ phone_taken p students) by (rewrite <- Hp; discriminate).
      cbn [isDuplicate field]. repeat split; try tauto; try discriminate.
      intros Hr. now rewrite (Hrow Hr).
Qed.
